(** * Audit manager: rule registry, rule resolution, record builder and
      request interception pipeline.

    Shallow embedding of [packages/core/server/src/audit-manager/index.ts].

    - JavaScript values are a small inductive type [JsVal]; objects used as
      open mappings ([Record<string, any>]) are [gmap string JsVal].
    - [Map<string, Map<string, Action>>] is [gmap string (gmap string Action)].
    - Anything can be thrown: a thrown or rejected value is a [JsVal], or
      a [TypeError] the engine raises at one of the reads of the code.
    - [output] is an [async] method that the middleware does not await:
      it runs up to its first [await] inside the middleware and resumes
      later, when the context may have been changed by the caller.  The
      context is therefore given as it is at each resumption; what the
      pipeline does to the outside world is recorded as a list of
      [Event]s.
    - The manager itself, its sink and its registry, is taken as it is
      when the request arrives: it is not reconfigured while a request
      is being handled. *)

From stdpp Require Import gmap strings list fin_maps.
From Stdlib Require Import ZArith Ascii String Permutation.

Set Warnings "-register-all".
#[local] Open Scope string_scope.

(** ** JavaScript values *)

(** The four stream classes [isStream] tests with [instanceof]. *)
Inductive StreamClass := Readable | Writable | Duplex | Transform.

Inductive JsVal :=
| VUndefined
| VNull
| VBool (b : bool)
| VNum (n : Z)
| VStr (s : string)
| VArr (items : list JsVal)
| VObj (fields : gmap string JsVal)
| VBuffer (bytes : string)
| VStream (cls : StreamClass).

(** [Record<string, any>]. *)
Abbreviation Obj := (gmap string JsVal).

(** JavaScript truthiness ([if (v)], [!v], [a || b]). *)
Definition truthy (v : JsVal) : bool :=
  match v with
  | VUndefined | VNull => false
  | VBool b => b
  | VNum n => negb (n =? 0)%Z
  | VStr s => negb (String.eqb s "")
  | VArr _ | VObj _ | VBuffer _ | VStream _ => true
  end.

(** Truthiness of a string-typed slot that may be [undefined]. *)
Definition truthyStr (s : option string) : bool :=
  match s with
  | Some s => negb (String.eqb s "")
  | None => false
  end.

(** [obj instanceof Stream.C]: [Duplex] derives from [Readable] and answers
    [instanceof Writable] as well; [Transform] derives from [Duplex]. *)
Definition instanceOf (obj : JsVal) (c : StreamClass) : bool :=
  match obj with
  | VStream k =>
    match k, c with
    | Readable, Readable | Writable, Writable => true
    | Duplex, (Readable | Writable | Duplex) => true
    | Transform, _ => true
    | _, _ => false
    end
  | _ => false
  end.

Definition isStream (obj : JsVal) : bool :=
  instanceOf obj Readable || instanceOf obj Writable
  || instanceOf obj Duplex || instanceOf obj Transform.

(** [Buffer.isBuffer]. *)
Definition isBuffer (obj : JsVal) : bool :=
  match obj with VBuffer _ => true | _ => false end.

(** ** Strings: [split] and [join] *)

(** [s.split(sep)] for a one-character separator: never empty, the
    segments between consecutive separators. *)
Fixpoint split (sep : ascii) (s : string) : list string :=
  match s with
  | EmptyString => [EmptyString]
  | String c rest =>
    if Ascii.eqb c sep then EmptyString :: split sep rest
    else match split sep rest with
         | [] => [String c EmptyString]
         | seg :: segs => String c seg :: segs
         end
  end.

(** [keys.join(',')] on an array of strings. *)
Definition join (sep : string) (l : list string) : string := String.concat sep l.

(** [s] does not contain the character [sep]. *)
Fixpoint lacks (sep : ascii) (s : string) : bool :=
  match s with
  | EmptyString => true
  | String c rest => negb (Ascii.eqb c sep) && lacks sep rest
  end.

(** ** Request context *)

(** An [Error] object: a value whose [message] is a string. *)
Record Error := { message : string }.

(** [ctx.action.params]. *)
Record ActionParams := {
  filterByTk : JsVal;
  filterKeys : option (list string);
}.

(** [ctx.action]. *)
Record CtxAction := {
  resourceName : option string;
  actionName : string;
  params : option ActionParams;
}.

(** [ctx.request]. *)
Record Request := {
  req_params : JsVal;
  req_query : JsVal;
  req_body : JsVal;
  header : gmap string string;
  req_ip : string;
}.

(** The parts of the context the audit manager reads.  [ctx_status] is
    [ctx.status], [response_status] is [ctx.response.status];
    [currentUserId] is [ctx.state?.currentUser?.id] and [currentRole] is
    [ctx.state?.currentRole] ([VUndefined] when the chain is cut short);
    [ctx_log] tells whether [ctx.log] is defined. *)
Record Ctx := {
  reqId : JsVal;
  ctx_action : option CtxAction;
  request : Request;
  response_status : Z;
  ctx_status : Z;
  ctx_body : JsVal;
  currentUserId : JsVal;
  currentRole : JsVal;
  ctx_log : bool;
}.

(** ** Audit records, sinks and rules *)

Record AuditLog := {
  uuid : JsVal;
  dataSource : string;
  resource : option string;
  collection : string;
  association : string;
  action : string;
  resourceUk : JsVal;
  userId : JsVal;
  roleName : JsVal;
  ip : string;
  ua : option string;
  status : Z;
  metadata : option Obj;
}.

(** The value of [new Error(message)], as far as the code reads it. *)
Definition errorValue (e : Error) : JsVal := VObj {[ "message" := VStr (message e) ]}.

(** The reads at which the engine raises a [TypeError]: [ctx.action] is
    [undefined] where it is destructured or read through, [ctx.action.params]
    is [undefined] where it is destructured, [this.logger] is [undefined]
    where [log] is called, the caught value is [null] or [undefined] where
    its [message] is read. *)
Inductive Site := ReadingAction | ReadingParams | ReadingLogger | ReadingMessage.

(** What a [catch] receives: a value thrown or rejected by the code the
    pipeline calls, or a [TypeError] of the engine. *)
Inductive Thrown :=
| Raised (v : JsVal)
| TypeErrorAt (s : Site).

(** What a call of a hook, [await]ed, comes to: its promise resolves with
    a value, rejects with a value, or never settles; or the call itself
    throws before it returns a promise. *)
Inductive Awaited (A : Type) :=
| Resolves (v : A)
| Rejects (e : JsVal)
| Hangs
| Throws (e : JsVal).
Arguments Resolves {A} v.
Arguments Rejects {A} e.
Arguments Hangs {A}.
Arguments Throws {A} e.

(** Outcome of the call [logger.log(auditLog)], which is not awaited: the
    call throws, or it returns a promise that is rejected later, or it
    returns a promise that is not (fulfilled, or never settled). *)
Inductive SinkCall :=
| SinkThrows (e : JsVal)
| SinkFulfilled
| SinkRejected (e : JsVal).

Record AuditLogger := { log : AuditLog → SinkCall }.

(** A hook returns an object, or [null]/[undefined] ([None]). *)
Definition Hook := Ctx → Awaited (option Obj).

(** [type Action = string | { name; getMetaData?; getUserInfo? }]. *)
Inductive Action :=
| ActionString (s : string)
| ActionObject (name : string) (getMetaData : option Hook) (getUserInfo : option Hook).

Definition actionToken (a : Action) : string :=
  match a with
  | ActionString s => s
  | ActionObject name _ _ => name
  end.

(** Truthiness of a stored action: objects are truthy, a string is truthy
    unless empty. *)
Definition truthyAction (a : Action) : bool :=
  match a with
  | ActionString s => negb (String.eqb s "")
  | ActionObject _ _ _ => true
  end.

Abbreviation Resources := (gmap string (gmap string Action)).

Record AuditManager := {
  logger : option AuditLogger;
  resources : Resources;
}.

(** [new AuditManager()]. *)
Definition newAuditManager : AuditManager :=
  {| logger := None; resources := ∅ |}.

Definition setLogger (l : AuditLogger) (m : AuditManager) : AuditManager :=
  {| logger := Some l; resources := resources m |}.

(** ** Registration *)

(** The reserved key ['__default__']. *)
Definition DEFAULT : string := "__default__".

(** Character class [[a-zA-Z0-9_-]]. *)
Definition isNameChar (c : ascii) : bool :=
  let n := nat_of_ascii c in
  (((97 <=? n) && (n <=? 122)) || ((65 <=? n) && (n <=? 90))
   || ((48 <=? n) && (n <=? 57)) || (n =? 95) || (n =? 45))%nat.

Fixpoint allNameChars (s : string) : bool :=
  match s with
  | EmptyString => true
  | String c rest => isNameChar c && allNameChars rest
  end.

(** [/^[a-zA-Z0-9_-]+$/.test(s)]. *)
Definition nameRegex (s : string) : bool :=
  match s with
  | EmptyString => false
  | _ => allNameChars s
  end.

(** [s.match(/^([a-zA-Z0-9_-]+):\*$/)]: the captured group.  The class
    excludes the colon, so the group is the text before the only colon. *)
Definition resourceWildcardRegex (s : string) : option string :=
  match split ":" s with
  | [r; star] => if nameRegex r && String.eqb star "*" then Some r else None
  | _ => None
  end.

(** [s.match(/^([a-zA-Z0-9_-]+):([a-zA-Z0-9_-]+)$/)]: both groups. *)
Definition resourceAndActionRegex (s : string) : option (string * string) :=
  match split ":" s with
  | [r; a] => if nameRegex r && nameRegex a then Some (r, a) else None
  | _ => None
  end.

(** The three consecutive [if]s of [registerAction] that compute
    [(resourceName, actionName)] from the token; both start empty. *)
Definition parseToken (originAction : string) : string * string :=
  let ra := ("", "") in
  let ra := if nameRegex originAction then (DEFAULT, originAction) else ra in
  let ra := match resourceWildcardRegex originAction with
            | Some r => (r, DEFAULT)
            | None => ra
            end in
  let ra := match resourceAndActionRegex originAction with
            | Some (r, a) => (r, a)
            | None => ra
            end in
  ra.

(** The rule object [registerAction] stores: the token, and each hook
    that was supplied. *)
Definition saveAction (a : Action) : Action :=
  match a with
  | ActionString s => ActionObject s None None
  | ActionObject name getMetaData getUserInfo => ActionObject name getMetaData getUserInfo
  end.

Definition registerAction (a : Action) (rs : Resources) : Resources :=
  let originAction := actionToken a in
  let '(resourceName, actionName) := parseToken originAction in
  if String.eqb resourceName "" && String.eqb actionName "" then rs
  else
    let bucket := default ∅ (rs !! resourceName) in
    <[resourceName := <[actionName := saveAction a]> bucket]> rs.

(** [actions.forEach(registerAction)]. *)
Definition registerActions (actions : list Action) (rs : Resources) : Resources :=
  foldl (λ acc a, registerAction a acc) rs actions.

(** ** Resolution *)

(** [const x = bucket.get(key); if (x) ...]. *)
Definition getTruthy (bucket : gmap string Action) (key : string) : option Action :=
  match bucket !! key with
  | Some a => if truthyAction a then Some a else None
  | None => None
  end.

(** [getAction(action, resource?)]; [None] is [null]. *)
Definition getAction (action : string) (resource : option string) (rs : Resources)
  : option Action :=
  let resourceName := if truthyStr resource then default DEFAULT resource else DEFAULT in
  if String.eqb resourceName DEFAULT then
    match rs !! resourceName with
    | Some resourceActions => getTruthy resourceActions action
    | None => None
    end
  else
    match rs !! resourceName with
    | Some resourceActions =>
      match getTruthy resourceActions action with
      | Some resourceAction => Some resourceAction
      | None => getTruthy resourceActions DEFAULT
      end
    | None =>
      match rs !! DEFAULT with
      | Some resourceActions => getTruthy resourceActions action
      | None => None
      end
    end.

(** ** Effects of the pipeline *)

(** What [err.message] is in a diagnostic: a value of the program, or the
    text the engine gave the [TypeError] it raised at a site. *)
Inductive Message :=
| MessageValue (v : JsVal)
| EngineMessage (s : Site).

(** What the pipeline does to the outside world, in order.  [Diagnostic
    msg] is the call [ctx.log.error('audit output error: ' + msg)];
    [UnhandledRejection e] is a promise nobody awaits being rejected with
    [e]: the one [output] returns, or the one the sink returned. *)
Inductive Event :=
| Downstream
| SinkLog (l : AuditLog)
| Diagnostic (msg : Message)
| UnhandledRejection (e : Thrown).

(** Synchronous code inside a [try] block: the events so far, and the
    value reached or what was thrown. *)
Definition Eff (A : Type) : Type := list Event * (Thrown + A).

#[global] Instance Eff_ret : MRet Eff := λ A x, ([], inr x).
#[global] Instance Eff_bind : MBind Eff := λ A B f c,
  match c with
  | (evs, inl e) => (evs, inl e)
  | (evs, inr x) => let '(evs', r) := f x in ((evs ++ evs')%list, r)
  end.

Definition throw {A} (e : Thrown) : Eff A := ([], inl e).
Definition emit (ev : Event) : Eff unit := ([ev], inr tt).

(** How a piece of an [async] function ends: with a value, with something
    thrown, or never, stuck at an [await] whose promise does not settle. *)
Inductive Ending (A : Type) :=
| Done (a : A)
| Fails (err : Thrown)
| Stuck.
Arguments Done {A} a.
Arguments Fails {A} err.
Arguments Stuck {A}.

(** A piece of an [async] function, started after [tick] resumptions: its
    events, how it ends, and the number of resumptions by then.  The
    function runs from one [await] to the next without interruption;
    at each [await] it gives way to its caller and resumes later. *)
Definition Async (A : Type) : Type := nat → list Event * Ending A * nat.

#[global] Instance Async_ret : MRet Async := λ A x tick, ([], Done x, tick).
#[global] Instance Async_bind : MBind Async := λ A B f c tick,
  match c tick with
  | (evs, Done x, tick') =>
    let '(evs', r, tick'') := f x tick' in ((evs ++ evs')%list, r, tick'')
  | (evs, Fails err, tick') => (evs, Fails err, tick')
  | (evs, Stuck, tick') => (evs, Stuck, tick')
  end.

(** Synchronous code run inside an [async] function. *)
Definition sync {A} (c : Eff A) : Async A := λ tick,
  match c with
  | (evs, inl err) => (evs, Fails err, tick)
  | (evs, inr x) => (evs, Done x, tick)
  end.

(** [await p] on what a call came to: the function resumes one step later
    with the value, or with the rejection thrown at the [await]; it never
    resumes if the promise never settles; a call that threw has thrown
    already, before any [await]. *)
Definition await {A} (p : Awaited A) : Async A := λ tick,
  match p with
  | Resolves v => ([], Done v, S tick)
  | Rejects e => ([], Fails (Raised e), S tick)
  | Hangs => ([], Stuck, tick)
  | Throws e => ([], Fails (Raised e), tick)
  end.

(** The shared context object as the function finds it now: [ctx n] is
    the context after [n] resumptions. *)
Definition current (ctx : nat → Ctx) : Async Ctx := λ tick, ([], Done (ctx tick), tick).

(** ** Audit record builder *)

(** [obj.key] on an object: [undefined] when the key is missing. *)
Definition prop (o : Obj) (key : string) : JsVal := default VUndefined (o !! key).

(** [err.message] on a thrown value: a [TypeError] ([None]) on [null] and
    [undefined], the property on an object, [undefined] on any other
    value. *)
Definition readMessageValue (v : JsVal) : option JsVal :=
  match v with
  | VUndefined | VNull => None
  | VObj o => Some (prop o "message")
  | VBool _ | VNum _ | VStr _ | VArr _ | VBuffer _ | VStream _ => Some VUndefined
  end.

(** [err.message] on what a [catch] received. *)
Definition readMessage (err : Thrown) : option Message :=
  match err with
  | Raised v => MessageValue <$> readMessageValue v
  | TypeErrorAt s => Some (EngineMessage s)
  end.

(** [{ ...a, ...b }]: the keys of both, [b] winning where both have one;
    spreading [null] or [undefined] adds nothing. *)
Definition spread (a : Obj) (b : option Obj) : Obj :=
  match b with
  | Some b => b ∪ a
  | None => a
  end.

Definition getDefaultMetaData (ctx : Ctx) : Obj :=
  let body := VNull in
  let body :=
    if truthy (ctx_body ctx) then
      if negb (isBuffer (ctx_body ctx)) && negb (isStream (ctx_body ctx))
      then ctx_body ctx else body
    else body in
  {[ "request" := VObj {[ "params" := req_params (request ctx);
                          "query" := req_query (request ctx);
                          "body" := req_body (request ctx) ]};
     "response" := VObj {[ "body" := body ]} ]}.

(** [const { filterByTk, filterKeys } = ctx.action.params] and on. *)
Definition formatResourceUk (ctx : Ctx) : Eff JsVal :=
  match ctx_action ctx with
  | None => throw (TypeErrorAt ReadingAction)
  | Some act =>
    match params act with
    | None => throw (TypeErrorAt ReadingParams)
    | Some p =>
      let resourceUk := VStr "" in
      let resourceUk := if truthy (filterByTk p) then filterByTk p else resourceUk in
      let resourceUk :=
        match filterKeys p with
        | Some keys => if (0 <? List.length keys)%nat then VStr (join "," keys) else resourceUk
        | None => resourceUk
        end in
      mret resourceUk
    end
  end.

(** The [collection] and [association] parts of a resource name. *)
Definition splitResource (resourceName : option string) : string * string :=
  let association := "" in
  let collection := "" in
  if truthyStr resourceName then
    let name := default "" resourceName in
    let resourceArray := split "." name in
    if (1 <? List.length resourceArray)%nat then
      (default "" (resourceArray !! 0%nat), default "" (resourceArray !! 1%nat))
    else (name, association)
  else (collection, association).

(** [a || b] on a header value. *)
Definition orElse (a : option string) (b : string) : string :=
  if truthyStr a then default b a else b.

Definition formatAuditData (ctx : Ctx) : Eff AuditLog :=
  match ctx_action ctx with
  | None => throw (TypeErrorAt ReadingAction)
  | Some act =>
    let '(collection, association) := splitResource (resourceName act) in
    resourceUk ← formatResourceUk ctx;
    mret {| uuid := reqId ctx;
            dataSource := orElse (header (request ctx) !! "x-data-source") "main";
            resource := resourceName act;
            association := association;
            collection := collection;
            action := actionName act;
            resourceUk := resourceUk;
            userId := currentUserId ctx;
            roleName := currentRole ctx;
            ip := req_ip (request ctx);
            ua := header (request ctx) !! "user-agent";
            status := response_status ctx;
            metadata := None |}
  end.

(** Field assignments on a record under construction. *)
Definition set_uuid (v : JsVal) (l : AuditLog) : AuditLog :=
  {| uuid := v; dataSource := dataSource l; resource := resource l;
     collection := collection l; association := association l; action := action l;
     resourceUk := resourceUk l; userId := userId l; roleName := roleName l;
     ip := ip l; ua := ua l; status := status l; metadata := metadata l |}.

Definition set_status (v : Z) (l : AuditLog) : AuditLog :=
  {| uuid := uuid l; dataSource := dataSource l; resource := resource l;
     collection := collection l; association := association l; action := action l;
     resourceUk := resourceUk l; userId := userId l; roleName := roleName l;
     ip := ip l; ua := ua l; status := v; metadata := metadata l |}.

Definition set_userId (v : JsVal) (l : AuditLog) : AuditLog :=
  {| uuid := uuid l; dataSource := dataSource l; resource := resource l;
     collection := collection l; association := association l; action := action l;
     resourceUk := resourceUk l; userId := v; roleName := roleName l;
     ip := ip l; ua := ua l; status := status l; metadata := metadata l |}.

Definition set_roleName (v : JsVal) (l : AuditLog) : AuditLog :=
  {| uuid := uuid l; dataSource := dataSource l; resource := resource l;
     collection := collection l; association := association l; action := action l;
     resourceUk := resourceUk l; userId := userId l; roleName := v;
     ip := ip l; ua := ua l; status := status l; metadata := metadata l |}.

Definition set_metadata (v : Obj) (l : AuditLog) : AuditLog :=
  {| uuid := uuid l; dataSource := dataSource l; resource := resource l;
     collection := collection l; association := association l; action := action l;
     resourceUk := resourceUk l; userId := userId l; roleName := roleName l;
     ip := ip l; ua := ua l; status := status l; metadata := Some v |}.

(** The [if (userInfo) { ... }] block of [output]. *)
Definition applyUserInfo (userInfo : option Obj) (l : AuditLog) : AuditLog :=
  match userInfo with
  | Some u =>
    let l := if truthy (prop u "id") then set_userId (prop u "id") l else l in
    if truthy (prop u "roleName") then set_roleName (prop u "roleName") l else l
  | None => l
  end.

(** [this.logger.log(auditLog)], not awaited. *)
Definition sinkLog (m : AuditManager) (l : AuditLog) : Eff unit :=
  match logger m with
  | None => throw (TypeErrorAt ReadingLogger)
  | Some lg =>
    _ ← emit (SinkLog l);
    match log lg l with
    | SinkThrows e => throw (Raised e)
    | SinkFulfilled => mret tt
    | SinkRejected e => emit (UnhandledRejection (Raised e))
    end
  end.

(** ** Interception pipeline *)

(** The hook block of [output]: the rule's user resolver, then its
    metadata extractor or, without one, the default metadata.  Each hook
    is called on the context as it is at that moment, and each [await]
    lets the caller run before the block goes on. *)
Definition enrich (rule : Action) (ctx : nat → Ctx) (metadata : Obj) (auditLog : AuditLog)
  : Async AuditLog :=
  match rule with
  | ActionObject _ getMetaData getUserInfo =>
    auditLog ←
      match getUserInfo with
      | Some f =>
        c ← current ctx;
        userInfo ← await (f c);
        mret (applyUserInfo userInfo auditLog)
      | None => mret auditLog
      end;
    match getMetaData with
    | Some f =>
      c ← current ctx;
      extra ← await (f c);
      mret (set_metadata (spread metadata extra) auditLog)
    | None =>
      c ← current ctx;
      defaultMetaData ← await (Resolves (getDefaultMetaData c));
      mret (set_metadata (spread metadata (Some defaultMetaData)) auditLog)
    end
  | ActionString _ =>
    c ← current ctx;
    defaultMetaData ← await (Resolves (getDefaultMetaData c));
    mret (set_metadata (spread metadata (Some defaultMetaData)) auditLog)
  end.

(** The [try] block of [output]. *)
Definition outputBody (m : AuditManager) (ctx : nat → Ctx) (reqId : JsVal) (status : Z)
  (metadata : Obj) : Async unit :=
  c ← current ctx;
  match ctx_action c with
  | None => sync (throw (TypeErrorAt ReadingAction))
  | Some act =>
    match getAction (actionName act) (resourceName act) (resources m) with
    | None => mret tt
    | Some rule =>
      auditLog ← sync (formatAuditData c);
      let auditLog := set_uuid reqId auditLog in
      let auditLog := set_status status auditLog in
      auditLog ← enrich rule ctx metadata auditLog;
      sync (sinkLog m auditLog)
    end
  end.

(** The [catch] block of [output], on the context as it is then:
    [ctx.log?.error('audit output error: ' + err.message)].  Without
    [ctx.log] nothing is evaluated; with it, reading the message of [null]
    or [undefined] throws inside the [catch], and the promise [output]
    returned is rejected. *)
Definition outputCatch (ctx : Ctx) (err : Thrown) : list Event :=
  if ctx_log ctx then
    match readMessage err with
    | Some msg => [Diagnostic msg]
    | None => [UnhandledRejection (TypeErrorAt ReadingMessage)]
    end
  else [].

(** [output], given the context as it is at each of its resumptions: the
    [try] block, and the [catch] when it threw. *)
Definition outputAt (m : AuditManager) (ctx : nat → Ctx) (reqId : JsVal) (status : Z)
  (metadata : Obj) : list Event :=
  match outputBody m ctx reqId status metadata 0%nat with
  | (evs, Fails err, tick) => (evs ++ outputCatch (ctx tick) err)%list
  | (evs, _, _) => evs
  end.

(** [output] on a context that nobody changes while it runs. *)
Definition output (m : AuditManager) (ctx : Ctx) (reqId : JsVal) (status : Z)
  (metadata : Obj) : list Event :=
  outputAt m (λ _, ctx) reqId status metadata.

(** The downstream handler [next], when it settles: the context as it
    leaves it, and the value it throws, if any. *)
Definition Next := Ctx → Ctx * option JsVal.

(** The metadata the [catch] of the middleware builds, [msg] being
    [err.message]. *)
Definition failureMetadata (ctx : Ctx) (msg : JsVal) : Obj :=
  {[ "status" := VNum (ctx_status ctx); "errMsg" := msg ]}.

(** The [status] and [metadata] the middleware passes to [output]: [1]
    and [{}], unless the handler threw and the [catch] got as far as
    assigning them; it does not when reading [err.message] throws. *)
Definition auditArgs (ctx : Ctx) (thrown : option JsVal) : Z * Obj :=
  match thrown with
  | None => (1%Z, ∅)
  | Some err =>
    match readMessageValue err with
    | Some msg => (0%Z, failureMetadata ctx msg)
    | None => (1%Z, ∅)
    end
  end.

(** What the caller of the middleware gets thrown: nothing if the handler
    returned; the handler's own value, by [throw err]; or the [TypeError]
    of reading [err.message], which leaves the [catch] before [throw err]
    is reached. *)
Definition delivered (thrown : option JsVal) : option Thrown :=
  match thrown with
  | None => None
  | Some err =>
    match readMessageValue err with
    | Some _ => Some (Raised err)
    | None => Some (TypeErrorAt ReadingMessage)
    end
  end.

(** The context at each resumption of [output] when the middleware calls
    it: as [next] left it up to the first [await], which is still inside
    the [finally] block, and as [later] has it afterwards, when the caller
    of the middleware has gone on. *)
Definition timeline (ctx : Ctx) (later : nat → Ctx) : nat → Ctx :=
  λ tick, match tick with O => ctx | S n => later n end.

(** The function [middleware()] returns, applied to [ctx] and [next]: the
    events, and what is thrown to the caller, if anything.  [output] is
    called and not awaited. *)
Definition middleware (m : AuditManager) (ctx : Ctx) (next : Next) (later : nat → Ctx)
  : list Event * option Thrown :=
  let reqId := reqId ctx in
  let '(ctx, thrown) := next ctx in
  let '(status, metadata) := auditArgs ctx thrown in
  let audit :=
    match logger m with
    | Some _ => outputAt m (timeline ctx later) reqId status metadata
    | None => []
    end in
  (Downstream :: audit, delivered thrown).

(** ** Reading the events and the records *)

(** The records handed to the sink, in order. *)
Definition sinkLogs (evs : list Event) : list AuditLog :=
  omap (λ ev, match ev with SinkLog l => Some l | _ => None end) evs.

(** The messages sent to [ctx.log.error], in order. *)
Definition diagnostics (evs : list Event) : list Message :=
  omap (λ ev, match ev with Diagnostic msg => Some msg | _ => None end) evs.

(** How many times the downstream handler ran. *)
Definition downstreamRuns (evs : list Event) : nat :=
  List.length (List.filter (λ ev, match ev with Downstream => true | _ => false end) evs).

(** The rule's metadata extractor and user resolver, if it has them. *)
Definition extractor (rule : Action) : option Hook :=
  match rule with
  | ActionObject _ getMetaData _ => getMetaData
  | ActionString _ => None
  end.

Definition userResolver (rule : Action) : option Hook :=
  match rule with
  | ActionObject _ _ getUserInfo => getUserInfo
  | ActionString _ => None
  end.

(** Every hook of the rule resolves on [ctx]. *)
Definition hooksResolve (rule : Action) (ctx : Ctx) : Prop :=
  (∀ f, userResolver rule = Some f → ∃ v, f ctx = Resolves v)
  ∧ (∀ f, extractor rule = Some f → ∃ v, f ctx = Resolves v).

(** [metadata.response.body]: [None] when the field is not there. *)
Definition responseBody (md : Obj) : option JsVal :=
  match md !! "response" with
  | Some (VObj response) => response !! "body"
  | _ => None
  end.

(** [metadata.request]. *)
Definition requestPart (md : Obj) : option JsVal := md !! "request".

(** What the rule's extractor returns on [ctx], when it has one that
    resolves with an object. *)
Definition extractorOutput (rule : Action) (ctx : Ctx) : option Obj :=
  match extractor rule with
  | Some f => match f ctx with Resolves extra => extra | _ => None end
  | None => None
  end.

(** The number of resumptions of the hook block before the metadata is
    read: one if the rule has a user resolver, which is awaited first. *)
Definition hookTick (rule : Action) : nat :=
  match userResolver rule with Some _ => 1%nat | None => 0%nat end.

(** Every hook of the rule resolves, each on the context it is called
    on. *)
Definition hooksResolveAt (rule : Action) (ctx : nat → Ctx) : Prop :=
  (∀ f, userResolver rule = Some f → ∃ v, f (ctx 0%nat) = Resolves v)
  ∧ (∀ f, extractor rule = Some f → ∃ v, f (ctx (hookTick rule)) = Resolves v).

(** Plain data: any value but a buffer or a stream. *)
Definition plainData (v : JsVal) : bool :=
  match v with
  | VBuffer _ | VStream _ => false
  | VUndefined | VNull | VBool _ | VNum _ | VStr _ | VArr _ | VObj _ => true
  end.

(** The text of a diagnostic whose message is a string. *)
Definition diagnosticText (msg : Message) : option string :=
  match msg with
  | MessageValue (VStr text) => Some ("audit output error: " +:+ text)
  | _ => None
  end.

(** The record [formatAuditData] builds when [ctx.action] and its [params]
    are there. *)
Definition baseRecord (ctx : Ctx) (act : CtxAction) (resourceUk : JsVal) : AuditLog :=
  {| uuid := reqId ctx;
     dataSource := orElse (header (request ctx) !! "x-data-source") "main";
     resource := resourceName act;
     association := (splitResource (resourceName act)).2;
     collection := (splitResource (resourceName act)).1;
     action := actionName act;
     resourceUk := resourceUk;
     userId := currentUserId ctx;
     roleName := currentRole ctx;
     ip := req_ip (request ctx);
     ua := header (request ctx) !! "user-agent";
     status := response_status ctx;
     metadata := None |}.

(** What [formatResourceUk] computes from the parameters. *)
Definition resourceUkOf (p : ActionParams) : JsVal :=
  match filterKeys p with
  | Some (k :: ks) => VStr (join "," (k :: ks))
  | _ => if truthy (filterByTk p) then filterByTk p else VStr ""
  end.

(** The fields the hook block of [output] leaves alone. *)
Definition sameSubject (l l' : AuditLog) : Prop :=
  uuid l' = uuid l ∧ status l' = status l ∧ collection l' = collection l
  ∧ association l' = association l ∧ resourceUk l' = resourceUk l
  ∧ resource l' = resource l ∧ action l' = action l.

(** The ways the [try] block of [output] can raise [err], and the number
    of resumptions by then: while resolving the rule, while building the
    record, in a hook that throws or whose promise rejects, or in the call
    of the sink. *)
Inductive AuditFailure (m : AuditManager) (ctx : nat → Ctx) (reqId : JsVal) (st : Z)
  (md : Obj) (err : Thrown) (tick : nat) : Prop :=
| FailResolve :
    ctx_action (ctx 0%nat) = None →
    err = TypeErrorAt ReadingAction → tick = 0%nat →
    AuditFailure m ctx reqId st md err tick
| FailBuild act rule :
    ctx_action (ctx 0%nat) = Some act →
    getAction (actionName act) (resourceName act) (resources m) = Some rule →
    params act = None →
    err = TypeErrorAt ReadingParams → tick = 0%nat →
    AuditFailure m ctx reqId st md err tick
| FailUserResolver act p rule f v :
    ctx_action (ctx 0%nat) = Some act → params act = Some p →
    getAction (actionName act) (resourceName act) (resources m) = Some rule →
    userResolver rule = Some f →
    (f (ctx 0%nat) = Rejects v ∧ tick = 1%nat) ∨ (f (ctx 0%nat) = Throws v ∧ tick = 0%nat) →
    err = Raised v →
    AuditFailure m ctx reqId st md err tick
| FailExtractor act p rule f v :
    ctx_action (ctx 0%nat) = Some act → params act = Some p →
    getAction (actionName act) (resourceName act) (resources m) = Some rule →
    (∀ g, userResolver rule = Some g → ∃ u, g (ctx 0%nat) = Resolves u) →
    extractor rule = Some f →
    (f (ctx (hookTick rule)) = Rejects v ∧ tick = S (hookTick rule))
    ∨ (f (ctx (hookTick rule)) = Throws v ∧ tick = hookTick rule) →
    err = Raised v →
    AuditFailure m ctx reqId st md err tick
| FailNoSink act p rule :
    ctx_action (ctx 0%nat) = Some act → params act = Some p →
    getAction (actionName act) (resourceName act) (resources m) = Some rule →
    hooksResolveAt rule ctx → logger m = None →
    err = TypeErrorAt ReadingLogger → tick = S (hookTick rule) →
    AuditFailure m ctx reqId st md err tick
| FailSinkThrows act p rule lg l v :
    ctx_action (ctx 0%nat) = Some act → params act = Some p →
    getAction (actionName act) (resourceName act) (resources m) = Some rule →
    enrich rule ctx md
      (set_status st (set_uuid reqId (baseRecord (ctx 0%nat) act (resourceUkOf p)))) 0%nat
    = ([], Done l, tick) →
    logger m = Some lg → log lg l = SinkThrows v →
    err = Raised v →
    AuditFailure m ctx reqId st md err tick.

(** ** The statements about resolution, in the words of the registration
    interface *)

(** [a] was registered with the fully qualified token [R:A]. *)
Definition isExact (R A : string) (a : Action) : Prop :=
  actionToken a = R +:+ ":" +:+ A ∧ nameRegex R = true ∧ nameRegex A = true.

(** [a] was registered with the resource wildcard token [R:*]. *)
Definition isWildcard (R : string) (a : Action) : Prop :=
  actionToken a = R +:+ ":*" ∧ nameRegex R = true.

(** [a] is a registration under resource [R]: it gives [R] a bucket. *)
Definition inBucket (R : string) (a : Action) : Prop :=
  isWildcard R a ∨ ∃ B, isExact R B a.

(** Exact lookup of [A] in the global bucket, nothing else. *)
Definition globalLookup (A : string) (rs : Resources) : option Action :=
  rs !! DEFAULT ≫= λ bucket, getTruthy bucket A.

(** [a] was registered with the bare action token [A], for all resources. *)
Definition isBare (A : string) (a : Action) : Prop :=
  actionToken a = A ∧ nameRegex A = true.

(** Specificity order of resolution for the query [(R, A)] over the
    registrations [L], in whatever order they are made: exact, then the
    resource's wildcard, then nothing if the resource has a bucket, else
    the exact action in the global bucket, where the bare registrations
    are. *)
Definition specificityOrder (L : list Action) (R A : string) : Prop :=
  ∀ L', L ≡ₚ L' →
    let res := getAction A (Some R) (registerActions L' ∅) in
    ((∃ a, a ∈ L ∧ isExact R A a) →
       ∃ a, a ∈ L ∧ isExact R A a ∧ res = Some (saveAction a))
    ∧ (¬ (∃ a, a ∈ L ∧ isExact R A a) → (∃ a, a ∈ L ∧ isWildcard R a) →
       ∃ a, a ∈ L ∧ isWildcard R a ∧ res = Some (saveAction a))
    ∧ (¬ (∃ a, a ∈ L ∧ isExact R A a) → ¬ (∃ a, a ∈ L ∧ isWildcard R a) →
       (∃ a, a ∈ L ∧ inBucket R a) → res = None)
    ∧ ((∀ a, a ∈ L → ¬ inBucket R a) →
       res = globalLookup A (registerActions L' ∅)
       ∧ ((∃ a, a ∈ L ∧ isBare A a) →
          ∃ a, a ∈ L ∧ isBare A a ∧ res = Some (saveAction a))
       ∧ (¬ (∃ a, a ∈ L ∧ isBare A a) → res = None)).

(** A token keeps clear of the reserved literal: neither its resource part
    nor its action part is ['__default__']. *)
Definition avoidsSentinel (t : string) : bool :=
  match resourceAndActionRegex t, resourceWildcardRegex t with
  | Some (r, a), _ => negb (String.eqb r DEFAULT) && negb (String.eqb a DEFAULT)
  | None, Some r => negb (String.eqb r DEFAULT)
  | None, None => true
  end.

(** The rule stored at [resources.get(r)?.get(a)]. *)
Definition slot (rs : Resources) (r a : string) : option Action :=
  rs !! r ≫= λ bucket, bucket !! a.

(** The slot a registration is written to. *)
Definition slotOf (x : Action) : string * string := parseToken (actionToken x).

(** ** Sample requests, rules and sinks *)

Definition sampleRequest : Request :=
  {| req_params := VObj {[ "filterByTk" := VNum 7 ]};
     req_query := VObj ∅;
     req_body := VObj {[ "title" := VStr "hello" ]};
     header := {[ "user-agent" := "curl/8" ]};
     req_ip := "10.0.0.1" |}.

Definition sampleCtx (resourceName actionName : string) (p : ActionParams) (body : JsVal)
  : Ctx :=
  {| reqId := VStr "req-1";
     ctx_action := Some {| resourceName := Some resourceName;
                           actionName := actionName;
                           params := Some p |};
     request := sampleRequest;
     response_status := 200;
     ctx_status := 200;
     ctx_body := body;
     currentUserId := VNum 1;
     currentRole := VStr "admin";
     ctx_log := true |}.

Definition noKeys : ActionParams := {| filterByTk := VUndefined; filterKeys := None |}.

Definition bothKeys : ActionParams :=
  {| filterByTk := VStr "7"; filterKeys := Some ["name"; "email"] |}.

Definition okSink : AuditLogger := {| log := λ _, SinkFulfilled |}.
Definition throwingSink (msg : string) : AuditLogger :=
  {| log := λ _, SinkThrows (errorValue {| message := msg |}) |}.
Definition rejectingSink (msg : string) : AuditLogger :=
  {| log := λ _, SinkRejected (errorValue {| message := msg |}) |}.

(** Downstream handlers that leave the context as it is. *)
Definition returns : Next := λ ctx, (ctx, None).
Definition throws (msg : string) : Next :=
  λ ctx, (ctx, Some (errorValue {| message := msg |})).

(** A downstream handler that throws the value [v]. *)
Definition throwsValue (v : JsVal) : Next := λ ctx, (ctx, Some v).

(** The context that is [ctx] at every later resumption. *)
Definition thereafter (ctx : Ctx) : nat → Ctx := λ _, ctx.

(** A manager with the given sink and registrations. *)
Definition managerWith (lg : option AuditLogger) (actions : list Action) : AuditManager :=
  {| logger := lg; resources := registerActions actions ∅ |}.

(** Extractors and a failing hook. *)
Definition e1 : Hook := λ _, Resolves (Some {[ "note" := VStr "from e1" ]}).
Definition maskingExtractor : Hook := λ _, Resolves (Some {[ "errMsg" := VStr "masked" ]}).
Definition rejectingHook (msg : string) : Hook :=
  λ _, Rejects (errorValue {| message := msg |}).

(** A hook whose promise is rejected with [null], and one whose promise
    never settles. *)
Definition rejectsNull : Hook := λ _, Rejects VNull.
Definition neverSettles : Hook := λ _, Hangs.

(** ** Further notions: registry *)

(** The last registration of [L] that is written to the slot [(r, a)]. *)
Definition lastAt (r a : string) (L : list Action) : option Action :=
  last (filter (λ x, slotOf x = (r, a)) L).

(** A registration that [registerAction] stores: its token falls under
    one of the three grammars. *)
Definition stored (x : Action) : Prop := slotOf x ≠ ("", "").

(** ** Further notions: records and events *)

(** The rejections nobody handled, in order. *)
Definition unhandled (evs : list Event) : list Thrown :=
  omap (λ ev, match ev with UnhandledRejection e => Some e | _ => None end) evs.


(** A user resolver that answers the [id] only. *)
Definition idOnlyResolver : Hook := λ _, Resolves (Some {[ "id" := VNum 42 ]}).

(** A downstream handler that overwrites the request id, sets the status
    to 500 and throws. *)
Definition failsAfterChangingId : Next := λ ctx,
  ({| reqId := VStr "changed";
      ctx_action := ctx_action ctx; request := request ctx;
      response_status := 500; ctx_status := 500;
      ctx_body := VNull; currentUserId := currentUserId ctx;
      currentRole := currentRole ctx; ctx_log := true |},
   Some (errorValue {| message := "boom" |})).

(** ** Field names ([generateFieldName]) *)

(** [s] without its first [n] characters. *)
Fixpoint dropS (n : nat) (s : string) : string :=
  match n, s with
  | O, _ => s
  | S n', EmptyString => EmptyString
  | S n', String _ rest => dropS n' rest
  end.

(** [n] times the character [c]. *)
Fixpoint repeatS (n : nat) (c : ascii) : string :=
  match n with
  | O => EmptyString
  | S n' => String c (repeatS n' c)
  end.

(** [s.replace(pat, '')] with a string pattern: the first occurrence of
    [pat] is removed, nothing else. *)
Fixpoint removeFirst (pat s : string) : string :=
  match s with
  | EmptyString => EmptyString
  | String c rest =>
    if String.prefix pat s then dropS (String.length pat) s
    else String c (removeFirst pat rest)
  end.

(** [s.slice(-n)]: the last [n] characters, all of [s] when it is shorter. *)
Definition sliceFromEnd (n : nat) (s : string) : string :=
  dropS (String.length s - n) s.

(** [s.padStart(n, c)] with a one-character filler. *)
Definition padStart (n : nat) (c : ascii) (s : string) : string :=
  repeatS (n - String.length s) c +:+ s.

(** [generateFieldName]; [random36] stands for what
    [Math.random().toString(36)] returned, the only thing the result
    depends on (the parameter [title] is not used). *)
Definition generateFieldName (random36 : string) : string :=
  "f_" +:+ padStart 4 "0" (sliceFromEnd 4 (removeFirst "0." random36)).

(** A digit in base 36, as [toString(36)] writes them. *)
Definition isBase36 (c : ascii) : bool :=
  let n := nat_of_ascii c in
  (((48 <=? n) && (n <=? 57)) || ((97 <=? n) && (n <=? 122)))%nat.

Fixpoint allBase36 (s : string) : bool :=
  match s with
  | EmptyString => true
  | String c rest => isBase36 c && allBase36 rest
  end.

(** * Properties *)

(** ** Worked examples *)

Example parse_bare : parseToken "create" = ("__default__", "create").
Proof. reflexivity. Qed.
Example parse_wild : parseToken "app:*" = ("app", "__default__").
Proof. reflexivity. Qed.
Example parse_exact : parseToken "pm:update" = ("pm", "update").
Proof. reflexivity. Qed.
Example parse_bad : parseToken "a:b:c" = ("", "").
Proof. reflexivity. Qed.
Example parse_bad2 : parseToken "*:a" = ("", "").
Proof. reflexivity. Qed.

Example resolve_doc_example :
  let rs := registerActions
              [ActionString "create"; ActionString "user:*"; ActionString "user:create"] ∅ in
  getAction "create" (Some "user") rs = Some (ActionObject "user:create" None None)
  ∧ getAction "update" (Some "user") rs = Some (ActionObject "user:*" None None)
  ∧ getAction "create" (Some "post") rs = Some (ActionObject "create" None None)
  ∧ getAction "update" (Some "post") rs = None.
Proof. vm_compute. auto. Qed.


(** ** Strings *)

Section Strings.

Lemma isNameChar_not (sep : ascii) (c : ascii) :
  isNameChar sep = false → isNameChar c = true → Ascii.eqb c sep = false.
Proof.
  intros Hsep Hc. destruct (Ascii.eqb c sep) eqn:E; [|done].
  apply Ascii.eqb_eq in E. congruence.
Qed.

Lemma split_ne sep s : split sep s ≠ [].
Proof. destruct s as [|c s]; simpl; [done|]. destruct (Ascii.eqb c sep); [done|]. by destruct (split sep s). Qed.

Lemma split_name sep s :
  isNameChar sep = false → allNameChars s = true → split sep s = [s].
Proof.
  intros Hsep. induction s as [|c s IH]; simpl; [done|].
  intros [Hc Hs]%andb_true_iff.
  rewrite (isNameChar_not sep c Hsep Hc), (IH Hs). done.
Qed.

Lemma split_name_app sep r x :
  isNameChar sep = false → allNameChars r = true →
  split sep (r +:+ String sep x) = r :: split sep x.
Proof.
  intros Hsep. induction r as [|c r IH]; simpl.
  - intros _. by rewrite Ascii.eqb_refl.
  - intros [Hc Hr]%andb_true_iff.
    rewrite (isNameChar_not sep c Hsep Hc), (IH Hr). done.
Qed.

Lemma join_split sep s : join (String sep "") (split sep s) = s.
Proof.
  induction s as [|c s IH]; simpl; [done|].
  destruct (Ascii.eqb c sep) eqn:E.
  - apply Ascii.eqb_eq in E. subst c.
    pose proof (split_ne sep s) as Hne.
    unfold join in *. simpl. destruct (split sep s) as [|seg segs]; [done|].
    simpl in *. by rewrite IH.
  - pose proof (split_ne sep s) as Hne.
    unfold join in *. destruct (split sep s) as [|seg segs]; [done|].
    simpl in *. destruct segs; simpl in *; by rewrite <- IH.
Qed.

Lemma split_two sep s r x : split sep s = [r; x] → s = r +:+ String sep x.
Proof.
  intros H. rewrite <- (join_split sep s), H. unfold join. simpl. done.
Qed.

Lemma nameRegex_all s : nameRegex s = true → allNameChars s = true.
Proof. by destruct s. Qed.

Lemma nameRegex_nonempty s : nameRegex s = true → s ≠ "".
Proof. by destruct s. Qed.

End Strings.

(** ** Token grammar *)

Section Grammar.

Lemma colon_not_name : isNameChar ":" = false.
Proof. reflexivity. Qed.

Lemma exact_regex_iff t r a :
  resourceAndActionRegex t = Some (r, a)
  ↔ t = r +:+ ":" +:+ a ∧ nameRegex r = true ∧ nameRegex a = true.
Proof.
  unfold resourceAndActionRegex. split.
  - destruct (split ":" t) as [|r' [|a' [|]]] eqn:E; try done.
    destruct (nameRegex r') eqn:Hr, (nameRegex a') eqn:Ha; simpl; try done.
    intros [= <- <-]. by rewrite (split_two _ _ _ _ E).
  - intros (-> & Hr & Ha).
    change (r +:+ ":" +:+ a) with (r +:+ String ":" a).
    rewrite (split_name_app ":" r a colon_not_name (nameRegex_all _ Hr)).
    rewrite (split_name ":" a colon_not_name (nameRegex_all _ Ha)).
    by rewrite Hr, Ha.
Qed.

Lemma wildcard_regex_iff t r :
  resourceWildcardRegex t = Some r ↔ t = r +:+ ":*" ∧ nameRegex r = true.
Proof.
  unfold resourceWildcardRegex. split.
  - destruct (split ":" t) as [|r' [|a' [|]]] eqn:E; try done.
    destruct (nameRegex r') eqn:Hr, (String.eqb a' "*") eqn:Ha; simpl; try done.
    intros [= <-]. apply String.eqb_eq in Ha. subst a'.
    by rewrite (split_two _ _ _ _ E).
  - intros (-> & Hr).
    change (r +:+ ":*") with (r +:+ String ":" "*").
    rewrite (split_name_app ":" r "*" colon_not_name (nameRegex_all _ Hr)).
    simpl. by rewrite Hr.
Qed.

Lemma bare_no_colon t :
  nameRegex t = true →
  resourceWildcardRegex t = None ∧ resourceAndActionRegex t = None.
Proof.
  intros Ht. unfold resourceWildcardRegex, resourceAndActionRegex.
  by rewrite (split_name ":" t colon_not_name (nameRegex_all _ Ht)).
Qed.

Lemma parseToken_bare t : nameRegex t = true → parseToken t = (DEFAULT, t).
Proof.
  intros Ht. destruct (bare_no_colon t Ht) as [Hw He].
  unfold parseToken. by rewrite Ht, Hw, He.
Qed.

Lemma parseToken_exact r a :
  nameRegex r = true → nameRegex a = true → parseToken (r +:+ ":" +:+ a) = (r, a).
Proof.
  intros Hr Ha. unfold parseToken.
  by rewrite (proj2 (exact_regex_iff _ r a) (conj eq_refl (conj Hr Ha))).
Qed.

Lemma star_not_name : nameRegex "*" = false.
Proof. reflexivity. Qed.

Lemma wildcard_not_exact r :
  nameRegex r = true → resourceAndActionRegex (r +:+ ":*") = None.
Proof.
  intros Hr. unfold resourceAndActionRegex.
  change (r +:+ ":*") with (r +:+ String ":" "*").
  rewrite (split_name_app ":" r "*" colon_not_name (nameRegex_all _ Hr)).
  simpl. by rewrite andb_false_r.
Qed.

Lemma parseToken_wildcard r : nameRegex r = true → parseToken (r +:+ ":*") = (r, DEFAULT).
Proof.
  intros Hr. unfold parseToken.
  rewrite (proj2 (wildcard_regex_iff _ r) (conj eq_refl Hr)).
  by rewrite (wildcard_not_exact r Hr).
Qed.

(** Every token is dropped or falls under exactly one of the three
    grammars; the slot it is stored in follows. *)
Lemma parseToken_cases t :
  parseToken t = ("", "")
  ∨ (nameRegex t = true ∧ parseToken t = (DEFAULT, t))
  ∨ (∃ r, t = r +:+ ":*" ∧ nameRegex r = true ∧ parseToken t = (r, DEFAULT))
  ∨ (∃ r a, t = r +:+ ":" +:+ a ∧ nameRegex r = true ∧ nameRegex a = true
            ∧ parseToken t = (r, a)).
Proof.
  destruct (resourceAndActionRegex t) as [[r a]|] eqn:He.
  { apply exact_regex_iff in He as (-> & Hr & Ha).
    right; right; right. exists r, a. eauto using parseToken_exact. }
  destruct (resourceWildcardRegex t) as [r|] eqn:Hw.
  { apply wildcard_regex_iff in Hw as (-> & Hr).
    right; right; left. exists r. eauto using parseToken_wildcard. }
  destruct (nameRegex t) eqn:Hn.
  { right; left. eauto using parseToken_bare. }
  left. unfold parseToken. by rewrite Hn, Hw, He.
Qed.

Lemma actionToken_saveAction a : actionToken (saveAction a) = actionToken a.
Proof. by destruct a. Qed.

Lemma truthyAction_saveAction a : truthyAction (saveAction a) = true.
Proof. by destruct a. Qed.

End Grammar.

(** ** Registry *)

Section Registry.

Lemma registerAction_slot x rs r a :
  slot (registerAction x rs) r a =
  if decide (slotOf x = (r, a) ∧ (r, a) ≠ ("", "")) then Some (saveAction x)
  else slot rs r a.
Proof.
  unfold registerAction, slotOf, slot.
  destruct (parseToken (actionToken x)) as [r0 a0].
  destruct (String.eqb r0 "" && String.eqb a0 "") eqn:Hdrop.
  - apply andb_true_iff in Hdrop as [->%String.eqb_eq ->%String.eqb_eq].
    case_decide as H; [|done]. destruct H as [E Hne]. by rewrite E in Hne.
  - assert ((r0, a0) ≠ ("", "")) as Hne.
    { intros [= -> ->]. done. }
    destruct (decide (r0 = r)) as [->|Hr].
    + rewrite lookup_insert_eq. simpl.
      destruct (decide (a0 = a)) as [->|Ha].
      * rewrite lookup_insert_eq. by rewrite decide_True.
      * rewrite lookup_insert_ne by done.
        rewrite decide_False by (intros [E _]; by injection E).
        by destruct (rs !! r).
    + rewrite lookup_insert_ne by done.
      by rewrite decide_False by (intros [E _]; by injection E).
Qed.

Lemma registerAction_bucket x rs r :
  is_Some (registerAction x rs !! r) →
  is_Some (rs !! r) ∨ (∃ a, slotOf x = (r, a) ∧ (r, a) ≠ ("", "")).
Proof.
  unfold registerAction, slotOf.
  destruct (parseToken (actionToken x)) as [r0 a0].
  destruct (String.eqb r0 "" && String.eqb a0 "") eqn:Hdrop; [by left|].
  destruct (decide (r0 = r)) as [->|Hr].
  - intros _. right. exists a0. split; [done|]. intros [= -> ->]. done.
  - rewrite lookup_insert_ne by done. by left.
Qed.

Lemma registerActions_snoc L x rs :
  registerActions (L ++ [x]) rs = registerAction x (registerActions L rs).
Proof. unfold registerActions. by rewrite foldl_app. Qed.

(** Whatever sits in a slot was put there by a registration that parses
    to that slot. *)
Lemma slot_registered L r a v :
  slot (registerActions L ∅) r a = Some v →
  ∃ x, x ∈ L ∧ slotOf x = (r, a) ∧ (r, a) ≠ ("", "") ∧ v = saveAction x.
Proof.
  induction L as [|x L IH] using rev_ind.
  - unfold slot. simpl. by rewrite lookup_empty.
  - rewrite registerActions_snoc, registerAction_slot.
    case_decide as H.
    + intros [= <-]. exists x. destruct H. split; [|done].
      apply elem_of_app. right. by apply list_elem_of_singleton.
    + intros (y & Hy & ?)%IH. exists y. split; [|done].
      apply elem_of_app. by left.
Qed.

(** A registration that is not dropped leaves its slot occupied. *)
Lemma slot_populated L x r a :
  x ∈ L → slotOf x = (r, a) → (r, a) ≠ ("", "") →
  is_Some (slot (registerActions L ∅) r a).
Proof.
  induction L as [|y L IH] using rev_ind; [by intros ?%elem_of_nil|].
  intros Hin Hs Hne.
  rewrite registerActions_snoc, registerAction_slot.
  case_decide as H; [done|].
  apply elem_of_app in Hin as [Hin | ->%list_elem_of_singleton]; [by apply IH|].
  by destruct H.
Qed.

Lemma bucket_registered L r :
  is_Some (registerActions L ∅ !! r) →
  ∃ x a, x ∈ L ∧ slotOf x = (r, a) ∧ (r, a) ≠ ("", "").
Proof.
  induction L as [|x L IH] using rev_ind.
  - simpl. rewrite lookup_empty. by intros [? ?].
  - rewrite registerActions_snoc.
    intros [H|(a & Hs & Hne)]%registerAction_bucket.
    + destruct (IH H) as (y & a & Hy & ?). exists y, a. split; [|done].
      apply elem_of_app. by left.
    + exists x, a. split; [|done].
      apply elem_of_app. right. by apply list_elem_of_singleton.
Qed.

(** Registered rules are objects, so the truthiness tests of [getAction]
    never discard one. *)
Lemma getTruthy_registered L r bucket a :
  registerActions L ∅ !! r = Some bucket → getTruthy bucket a = bucket !! a.
Proof.
  intros Hb. unfold getTruthy.
  destruct (bucket !! a) as [v|] eqn:Hv; [|done].
  destruct (slot_registered L r a v) as (x & _ & _ & _ & ->).
  { unfold slot. rewrite Hb. done. }
  by rewrite truthyAction_saveAction.
Qed.

Lemma getAction_unnamed A R rs :
  R = "" ∨ R = DEFAULT → getAction A (Some R) rs = globalLookup A rs.
Proof.
  intros [-> | ->]; unfold getAction, globalLookup; simpl; by destruct (rs !! DEFAULT).
Qed.

Lemma getAction_absent A rs : getAction A None rs = globalLookup A rs.
Proof. unfold getAction, globalLookup. simpl. by destruct (rs !! DEFAULT). Qed.

Lemma getAction_named A R rs :
  R ≠ "" → R ≠ DEFAULT →
  getAction A (Some R) rs =
  match rs !! R with
  | Some bucket =>
    match getTruthy bucket A with
    | Some v => Some v
    | None => getTruthy bucket DEFAULT
    end
  | None => globalLookup A rs
  end.
Proof.
  intros H1 H2. unfold getAction, globalLookup. simpl.
  rewrite (proj2 (String.eqb_neq R "")) by done. simpl.
  rewrite (proj2 (String.eqb_neq R DEFAULT)) by done.
  by destruct (rs !! R), (rs !! DEFAULT).
Qed.

End Registry.

(** ** Resolution order (C1, C10) *)

Section Resolution.

Lemma isExact_slot R A x : isExact R A x → slotOf x = (R, A) ∧ (R, A) ≠ ("", "").
Proof.
  intros (Ht & Hr & Ha). unfold slotOf. rewrite Ht. split.
  - by apply parseToken_exact.
  - intros [= -> ->]. done.
Qed.

Lemma isWildcard_slot R x : isWildcard R x → slotOf x = (R, DEFAULT) ∧ (R, DEFAULT) ≠ ("", "").
Proof.
  intros (Ht & Hr). unfold slotOf. rewrite Ht. split.
  - by apply parseToken_wildcard.
  - intros E. by injection E.
Qed.

Lemma isExact_avoids R A x :
  avoidsSentinel (actionToken x) = true → isExact R A x → R ≠ DEFAULT ∧ A ≠ DEFAULT.
Proof.
  intros Hs (Ht & Hr & Ha). unfold avoidsSentinel in Hs.
  rewrite (proj2 (exact_regex_iff _ R A) (conj Ht (conj Hr Ha))) in Hs.
  apply andb_true_iff in Hs as [H1 H2].
  split; intros ->; done.
Qed.

Lemma isWildcard_avoids R x :
  avoidsSentinel (actionToken x) = true → isWildcard R x → R ≠ DEFAULT.
Proof.
  intros Hs (Ht & Hr). unfold avoidsSentinel in Hs.
  rewrite Ht, (wildcard_not_exact R Hr) in Hs.
  rewrite (proj2 (wildcard_regex_iff _ R) (conj eq_refl Hr)) in Hs.
  intros ->. done.
Qed.

(** Which registration can have written a slot of a named resource, when
    tokens keep clear of the reserved literal. *)
Lemma named_slot_class x r a :
  avoidsSentinel (actionToken x) = true →
  slotOf x = (r, a) → (r, a) ≠ ("", "") → r ≠ DEFAULT →
  (a = DEFAULT ∧ isWildcard r x) ∨ (a ≠ DEFAULT ∧ isExact r a x).
Proof.
  intros Hs Hp Hne Hr. unfold slotOf in Hp.
  destruct (parseToken_cases (actionToken x))
    as [E|[[Hn E]|[(r' & Ht & Hn & E)|(r' & a' & Ht & Hn & Hn' & E)]]];
    rewrite E in Hp.
  - by rewrite Hp in Hne.
  - by injection Hp as <- _.
  - injection Hp as <- <-. left. done.
  - injection Hp as <- <-. right.
    assert (isExact r' a' x) as Hex by done.
    split; [|done]. by destruct (isExact_avoids _ _ _ Hs Hex).
Qed.

Lemma inBucket_named L R x :
  Forall (λ a, avoidsSentinel (actionToken a) = true) L →
  x ∈ L → inBucket R x → R ≠ "" ∧ R ≠ DEFAULT.
Proof.
  intros Hs Hin Hb.
  assert (avoidsSentinel (actionToken x) = true) as Hx.
  { by apply (proj1 (Forall_forall _ L) Hs). }
  destruct Hb as [Hw|[B He]].
  - split; [|by eapply isWildcard_avoids].
    destruct Hw as [_ Hn]. by apply nameRegex_nonempty.
  - split; [|by destruct (isExact_avoids _ _ _ Hx He)].
    destruct He as (_ & Hn & _). by apply nameRegex_nonempty.
Qed.

End Resolution.

Section SpecificityOrder.

Variable L : list Action.
Hypothesis Hclear : Forall (λ a, avoidsSentinel (actionToken a) = true) L.
Variable L' : list Action.
Hypothesis Hperm : L ≡ₚ L'.

Lemma in_perm x : x ∈ L' ↔ x ∈ L.
Proof using Hperm. by rewrite Hperm. Qed.

Lemma clear_in x : x ∈ L → avoidsSentinel (actionToken x) = true.
Proof using Hclear. intros Hin. by apply (proj1 (Forall_forall _ L) Hclear). Qed.

(** A slot of a named resource [R] holds a wildcard registration (slot
    ['__default__']) or an exact one. *)
Lemma named_slot R A v :
  R ≠ DEFAULT → slot (registerActions L' ∅) R A = Some v →
  ∃ x, x ∈ L ∧ v = saveAction x
       ∧ ((A = DEFAULT ∧ isWildcard R x) ∨ (A ≠ DEFAULT ∧ isExact R A x)).
Proof using Hclear Hperm.
  intros HR (x & Hin%in_perm & Hs & Hne & ->)%slot_registered.
  exists x. split; [done|]. split; [done|].
  apply named_slot_class; auto using clear_in.
Qed.

Lemma bucket_lookup R bucket A :
  (registerActions L' ∅) !! R = Some bucket → getTruthy bucket A = slot (registerActions L' ∅) R A.
Proof.
  intros Hb. rewrite (getTruthy_registered L' R bucket A Hb).
  unfold slot. by rewrite Hb.
Qed.

Lemma exact_wins R A :
  (∃ a, a ∈ L ∧ isExact R A a) →
  ∃ a, a ∈ L ∧ isExact R A a ∧ getAction A (Some R) (registerActions L' ∅) = Some (saveAction a).
Proof using Hclear Hperm.
  intros (a & Hin & Hex).
  destruct (inBucket_named L R a Hclear Hin) as [HR1 HR2]; [right; eauto|].
  destruct (isExact_avoids R A a (clear_in a Hin) Hex) as [_ HA].
  destruct (isExact_slot R A a Hex) as [Hs Hne].
  destruct (slot_populated L' a R A (proj2 (in_perm a) Hin) Hs Hne) as [v Hv].
  destruct (named_slot R A v HR2 Hv) as (x & Hx & -> & [[? _]|[_ Hxe]]); [done|].
  exists x. split; [done|]. split; [done|].
  rewrite getAction_named by done.
  unfold slot in Hv. destruct ((registerActions L' ∅) !! R) as [bucket|] eqn:Hb; [|done].
  rewrite (bucket_lookup R bucket A Hb). unfold slot. rewrite Hb. simpl in *.
  by rewrite Hv.
Qed.

Lemma wildcard_next R A :
  ¬ (∃ a, a ∈ L ∧ isExact R A a) → (∃ a, a ∈ L ∧ isWildcard R a) →
  ∃ a, a ∈ L ∧ isWildcard R a ∧ getAction A (Some R) (registerActions L' ∅) = Some (saveAction a).
Proof using Hclear Hperm.
  intros Hno (w & Hin & Hw).
  destruct (inBucket_named L R w Hclear Hin) as [HR1 HR2]; [by left|].
  destruct (isWildcard_slot R w Hw) as [Hs Hne].
  destruct (slot_populated L' w R DEFAULT (proj2 (in_perm w) Hin) Hs Hne) as [v Hv].
  rewrite getAction_named by done.
  pose proof Hv as Hv'. unfold slot in Hv'.
  destruct ((registerActions L' ∅) !! R) as [bucket|] eqn:Hb; [|done].
  rewrite !(bucket_lookup R bucket _ Hb).
  destruct (slot (registerActions L' ∅) R A) as [v'|] eqn:Hv''.
  - destruct (named_slot R A v' HR2 Hv'') as (x & Hx & -> & [[_ Hxw]|[_ Hxe]]).
    + by exists x.
    + destruct Hno. by exists x.
  - destruct (named_slot R DEFAULT v HR2 Hv) as (x & Hx & -> & [[_ Hxw]|[? _]]); [|done].
    exists x. by rewrite Hv.
Qed.

Lemma bucket_blocks R A :
  ¬ (∃ a, a ∈ L ∧ isExact R A a) → ¬ (∃ a, a ∈ L ∧ isWildcard R a) →
  (∃ a, a ∈ L ∧ inBucket R a) → getAction A (Some R) (registerActions L' ∅) = None.
Proof using Hclear Hperm.
  intros Hno Hnw (b & Hin & Hb).
  destruct (inBucket_named L R b Hclear Hin Hb) as [HR1 HR2].
  destruct Hb as [Hw|[B Hex]]; [destruct Hnw; by exists b|].
  destruct (isExact_slot R B b Hex) as [Hs Hne].
  destruct (slot_populated L' b R B (proj2 (in_perm b) Hin) Hs Hne) as [v Hv].
  rewrite getAction_named by done.
  unfold slot in Hv. destruct ((registerActions L' ∅) !! R) as [bucket|] eqn:Hbk; [|done].
  rewrite !(bucket_lookup R bucket _ Hbk).
  destruct (slot (registerActions L' ∅) R A) as [v'|] eqn:Hv'.
  { destruct (named_slot R A v' HR2 Hv') as (x & Hx & -> & [[_ Hxw]|[_ Hxe]]).
    - destruct Hnw. by exists x.
    - destruct Hno. by exists x. }
  destruct (slot (registerActions L' ∅) R DEFAULT) as [v''|] eqn:Hv''; [|done].
  destruct (named_slot R DEFAULT v'' HR2 Hv'') as (x & Hx & -> & [[_ Hxw]|[? _]]); [|done].
  destruct Hnw. by exists x.
Qed.

(** The global bucket holds bare registrations only. *)
Lemma global_slot A v :
  slot (registerActions L' ∅) DEFAULT A = Some v →
  ∃ x, x ∈ L ∧ v = saveAction x ∧ isBare A x.
Proof using Hclear Hperm.
  intros (x & Hin%in_perm & Hs & Hne & ->)%slot_registered.
  exists x. split; [done|]. split; [done|].
  pose proof (clear_in x Hin) as Hx. unfold slotOf in Hs.
  destruct (parseToken_cases (actionToken x))
    as [E|[[Hn E]|[(r' & Ht & Hn & E)|(r' & a' & Ht & Hn & Hn' & E)]]];
    rewrite E in Hs.
  - by rewrite <- Hs in Hne.
  - injection Hs as <-. done.
  - injection Hs as -> <-.
    by destruct (isWildcard_avoids DEFAULT x Hx (conj Ht Hn)).
  - injection Hs as -> <-.
    by destruct (isExact_avoids DEFAULT a' x Hx (conj Ht (conj Hn Hn'))) as [? _].
Qed.

Lemma globalLookup_slot A :
  globalLookup A (registerActions L' ∅) = slot (registerActions L' ∅) DEFAULT A.
Proof.
  unfold globalLookup, slot.
  destruct (registerActions L' ∅ !! DEFAULT) as [bucket|] eqn:Hb; [|done].
  simpl. by rewrite (getTruthy_registered L' DEFAULT bucket A Hb).
Qed.

Lemma global_bare A :
  ((∃ a, a ∈ L ∧ isBare A a) →
     ∃ a, a ∈ L ∧ isBare A a ∧ globalLookup A (registerActions L' ∅) = Some (saveAction a))
  ∧ (¬ (∃ a, a ∈ L ∧ isBare A a) → globalLookup A (registerActions L' ∅) = None).
Proof using Hclear Hperm.
  rewrite globalLookup_slot. split.
  - intros (a & Hin & Ht & Hn).
    destruct (slot_populated L' a DEFAULT A (proj2 (in_perm a) Hin)) as [v Hv].
    { unfold slotOf. rewrite Ht. by apply parseToken_bare. }
    { intros E. by injection E. }
    destruct (global_slot A v Hv) as (x & Hx & -> & Hb).
    exists x. by rewrite Hv.
  - intros Hno.
    destruct (slot (registerActions L' ∅) DEFAULT A) as [v|] eqn:Hv; [|done].
    destruct (global_slot A v Hv) as (x & Hx & _ & Hb).
    destruct Hno. by exists x.
Qed.

Lemma no_bucket_falls_back R A :
  (∀ a, a ∈ L → ¬ inBucket R a) →
  getAction A (Some R) (registerActions L' ∅) = globalLookup A (registerActions L' ∅).
Proof using Hclear Hperm.
  intros Hnone.
  destruct (decide (R = "")) as [->|HR1]; [by apply getAction_unnamed; left|].
  destruct (decide (R = DEFAULT)) as [->|HR2]; [by apply getAction_unnamed; right|].
  rewrite getAction_named by done.
  destruct ((registerActions L' ∅) !! R) as [bucket|] eqn:Hb; [|done].
  exfalso.
  destruct (bucket_registered L' R) as (x & a & Hx%in_perm & Hs & Hne).
  { by rewrite Hb. }
  apply (Hnone x Hx).
  destruct (named_slot_class x R a (clear_in x Hx) Hs Hne HR2) as [[_ ?]|[_ ?]].
  - by left.
  - right. by exists a.
Qed.

End SpecificityOrder.

(** C1 (amended): when no registered token uses the reserved literal
    ['__default__'] as its resource or action part, resolution follows the
    specificity order for every query and every order of registration: an
    exact [R:A] registration is returned before the wildcard [R:*], the
    wildcard before anything global; a resource with a bucket but neither
    entry yields no match; a resource without a bucket falls back to the
    exact action in the global bucket. *)
Theorem resolution_follows_specificity (L : list Action) (R A : string) :
  Forall (λ a, avoidsSentinel (actionToken a) = true) L →
  specificityOrder L R A.
Proof.
  intros Hclear L' Hperm. cbv zeta.
  split; [by apply exact_wins|].
  split; [by apply wildcard_next|].
  split; [by apply bucket_blocks|].
  intros Hnone.
  pose proof (no_bucket_falls_back L Hclear L' Hperm R A Hnone) as Hg.
  split; [done|]. rewrite Hg. by apply global_bare.
Qed.

Lemma resolution_follows_specificity_witness :
  specificityOrder
    [ActionString "create"; ActionString "user:*"; ActionString "user:create"]
    "user" "create".
Proof.
  apply resolution_follows_specificity.
  repeat constructor.
Defined.

(** C1 as stated fails: with the tokens [user:__default__] and [user:*],
    registered in this order, the query [(user, __default__)] returns the
    wildcard rule although an exact registration exists; registered in the
    other order it returns the exact one. *)
Lemma specificity_broken_by_sentinel :
  getAction "__default__" (Some "user")
    (registerActions [ActionString "user:__default__"; ActionString "user:*"] ∅)
  = Some (ActionObject "user:*" None None)
  ∧ getAction "__default__" (Some "user")
      (registerActions [ActionString "user:*"; ActionString "user:__default__"] ∅)
    = Some (ActionObject "user:__default__" None None)
  ∧ ¬ specificityOrder [ActionString "user:__default__"; ActionString "user:*"]
        "user" "__default__".
Proof.
  assert (getAction "__default__" (Some "user")
            (registerActions [ActionString "user:__default__"; ActionString "user:*"] ∅)
          = Some (ActionObject "user:*" None None)) as E by (vm_compute; reflexivity).
  split; [exact E|]. split; [vm_compute; reflexivity|].
  intros H.
  destruct (H _ (reflexivity _)) as [H1 _].
  destruct H1 as (a & _ & (Ht & _) & Hres).
  - exists (ActionString "user:__default__"). split; [by left|]. by repeat split.
  - rewrite E in Hres. injection Hres as Hres.
    apply (f_equal actionToken) in Hres.
    rewrite actionToken_saveAction, Ht in Hres. discriminate Hres.
Qed.

(** Resolving under the literal resource name reads the slot of the
    global bucket, and nothing else. *)
Lemma getAction_sentinel A rs :
  getAction A (Some DEFAULT) rs =
  match slot rs DEFAULT A with
  | Some v => if truthyAction v then Some v else None
  | None => None
  end.
Proof.
  unfold getAction, slot, getTruthy. simpl.
  destruct (rs !! DEFAULT) as [bucket|]; simpl; [|done].
  by destruct (bucket !! A).
Qed.

(** A registration in the global bucket gives no bucket to any other
    resource. *)
Lemma registerAction_global_only x a rs R :
  slotOf x = (DEFAULT, a) → R ≠ DEFAULT → registerAction x rs !! R = rs !! R.
Proof.
  intros Hs HR. unfold registerAction. unfold slotOf in Hs. rewrite Hs.
  destruct (String.eqb DEFAULT "" && String.eqb a ""); [done|].
  by rewrite lookup_insert_ne.
Qed.

(** C10: the reserved bucket can be addressed from the public interface.
    A token [__default__:a] is stored in the very slot of the global
    bucket where the bare token [a] goes: once registered, that rule is
    what the action [a] resolves to with no resource, under the resource
    name ['__default__'], and under any resource that has no bucket, just
    as for the bare token.  Resolving under the resource name
    ['__default__'] is resolving with no resource: an exact lookup in the
    global bucket, with no wildcard fallback, not even to a rule
    registered as [__default__:*], which only the action ['__default__']
    finds. *)
Theorem sentinel_bucket_addressable (a : string) (x : Action) :
  nameRegex a = true → actionToken x = DEFAULT +:+ ":" +:+ a →
  slotOf x = (DEFAULT, a)
  ∧ slotOf (ActionString a) = (DEFAULT, a)
  ∧ (∀ rs, slot (registerAction x rs) DEFAULT a = Some (saveAction x))
  ∧ (∀ rs A, getAction A (Some DEFAULT) rs = getAction A None rs)
  ∧ (∀ rs A, getAction A (Some DEFAULT) rs = globalLookup A rs)
  ∧ (∀ rs A, getAction A (Some DEFAULT) rs =
             match slot rs DEFAULT A with
             | Some v => if truthyAction v then Some v else None
             | None => None
             end)
  ∧ (∀ rs, getAction a (Some DEFAULT) (registerAction x rs) = Some (saveAction x)
           ∧ getAction a None (registerAction x rs) = Some (saveAction x))
  ∧ (∀ rs R, R ≠ "" → R ≠ DEFAULT → rs !! R = None →
             getAction a (Some R) (registerAction x rs) = Some (saveAction x))
  ∧ (∀ rs y, actionToken y = a →
             getAction a (Some DEFAULT) (registerAction y rs) = Some (saveAction y)
             ∧ slot (registerAction y (registerAction x rs)) DEFAULT a
               = Some (saveAction y)
             ∧ slot (registerAction x (registerAction y rs)) DEFAULT a
               = Some (saveAction x))
  ∧ (∀ rs w A, actionToken w = DEFAULT +:+ ":*" → A ≠ DEFAULT →
               slot rs DEFAULT A = None →
               getAction A (Some DEFAULT) (registerAction w rs) = None
               ∧ getAction DEFAULT (Some DEFAULT) (registerAction w rs)
                 = Some (saveAction w)).
Proof.
  intros Ha Hx.
  assert (slotOf x = (DEFAULT, a)) as Hs.
  { unfold slotOf. rewrite Hx. by apply parseToken_exact. }
  assert (∀ rs, slot (registerAction x rs) DEFAULT a = Some (saveAction x)) as Hslot.
  { intros rs. rewrite registerAction_slot, decide_True; [done|].
    split; [done|]. intros E. by injection E. }
  assert (∀ rs, getAction a (Some DEFAULT) (registerAction x rs) = Some (saveAction x))
    as Hget.
  { intros rs. by rewrite getAction_sentinel, Hslot, truthyAction_saveAction. }
  split; [done|]. split; [by apply parseToken_bare|].
  split; [done|].
  split. { intros rs A. by rewrite getAction_absent, getAction_unnamed by (by right). }
  split. { intros rs A. by rewrite getAction_unnamed by (by right). }
  split; [intros rs A; apply getAction_sentinel|].
  split.
  { intros rs. split; [done|].
    by rewrite getAction_absent, <- (getAction_unnamed a DEFAULT) by (by right). }
  split.
  { intros rs R HR0 HR Hnone. rewrite getAction_named by done.
    rewrite (registerAction_global_only x a rs R Hs HR), Hnone.
    specialize (Hget rs). by rewrite getAction_unnamed in Hget by (by right). }
  split.
  { intros rs y Hy.
    assert (slotOf y = (DEFAULT, a)) as Hsy.
    { unfold slotOf. rewrite Hy. by apply parseToken_bare. }
    assert (∀ rs', slot (registerAction y rs') DEFAULT a = Some (saveAction y)) as Hy'.
    { intros rs'. rewrite registerAction_slot, decide_True; [done|].
      split; [done|]. intros E. by injection E. }
    split; [|done].
    by rewrite getAction_sentinel, Hy', truthyAction_saveAction. }
  intros rs w A Hw HA Hnone.
  assert (slotOf w = (DEFAULT, DEFAULT)) as Hsw.
  { unfold slotOf. rewrite Hw. by apply parseToken_wildcard. }
  split.
  - rewrite getAction_sentinel, registerAction_slot, decide_False, Hnone; [done|].
    intros [E _]. rewrite Hsw in E. injection E as E. by apply HA.
  - rewrite getAction_sentinel, registerAction_slot, decide_True.
    + by rewrite truthyAction_saveAction.
    + split; [done|]. intros E. by injection E.
Qed.

Lemma sentinel_bucket_addressable_witness :
  getAction "foo" (Some "__default__")
    (registerAction (ActionString "__default__:foo") ∅)
  = Some (ActionObject "__default__:foo" None None)
  ∧ getAction "foo" None (registerAction (ActionString "__default__:foo") ∅)
    = Some (ActionObject "__default__:foo" None None)
  ∧ getAction "foo" (Some "user") (registerAction (ActionString "__default__:foo") ∅)
    = Some (ActionObject "__default__:foo" None None)
  ∧ getAction "foo" (Some "__default__") (registerAction (ActionString "__default__:*") ∅)
    = None.
Proof.
  destruct (sentinel_bucket_addressable "foo" (ActionString "__default__:foo")
              eq_refl eq_refl)
    as (_ & _ & _ & _ & _ & _ & Hget & Hany & _ & Hstar).
  split; [apply (Hget ∅)|]. split; [apply (Hget ∅)|].
  split; [by apply (Hany ∅ "user")|].
  by apply (Hstar ∅ (ActionString "__default__:*") "foo").
Defined.

(** ** Record builder (C6, C7, C9) *)

Section Builder.

Lemma formatResourceUk_ok ctx act p :
  ctx_action ctx = Some act → params act = Some p →
  formatResourceUk ctx = mret (resourceUkOf p).
Proof.
  intros Ha Hp. unfold formatResourceUk, resourceUkOf. rewrite Ha, Hp.
  by destruct (filterKeys p) as [[|k ks]|].
Qed.

Lemma formatAuditData_ok ctx act p :
  ctx_action ctx = Some act → params act = Some p →
  formatAuditData ctx = mret (baseRecord ctx act (resourceUkOf p)).
Proof.
  intros Ha Hp. unfold formatAuditData. rewrite Ha.
  rewrite (formatResourceUk_ok ctx act p Ha Hp).
  unfold baseRecord. by destruct (splitResource (resourceName act)).
Qed.

Lemma formatAuditData_inv ctx evs l :
  formatAuditData ctx = (evs, inr l) →
  evs = [] ∧ ∃ act p, ctx_action ctx = Some act ∧ params act = Some p
                      ∧ l = baseRecord ctx act (resourceUkOf p).
Proof.
  destruct (ctx_action ctx) as [act|] eqn:Ha.
  - destruct (params act) as [p|] eqn:Hp.
    + rewrite (formatAuditData_ok ctx act p Ha Hp). intros [= <- <-]. eauto 6.
    + unfold formatAuditData, formatResourceUk. rewrite Ha, Hp.
      by destruct (splitResource (resourceName act)).
  - unfold formatAuditData. by rewrite Ha.
Qed.

Lemma formatAuditData_events ctx : (formatAuditData ctx).1 = [].
Proof.
  unfold formatAuditData, formatResourceUk.
  destruct (ctx_action ctx) as [act|]; [|done].
  destruct (splitResource (resourceName act)).
  by destruct (params act).
Qed.

Lemma lacks_split sep s : lacks sep s = true → split sep s = [s].
Proof.
  induction s as [|c s IH]; simpl; [done|].
  intros [Hc Hs]%andb_true_iff.
  apply negb_true_iff in Hc. by rewrite Hc, (IH Hs).
Qed.

Lemma lacks_split_app sep c rest :
  lacks sep c = true → split sep (c +:+ String sep rest) = c :: split sep rest.
Proof.
  induction c as [|ch c IH]; simpl.
  - intros _. by rewrite Ascii.eqb_refl.
  - intros [Hc Hs]%andb_true_iff.
    apply negb_true_iff in Hc. by rewrite Hc, (IH Hs).
Qed.

End Builder.

(** ** Hooks and dispatch *)

Section Dispatch.

Lemma Eff_bind_ret {A B} (x : A) (f : A → Eff B) : (mret x ≫= f) = f x.
Proof. unfold mbind, mret, Eff_bind, Eff_ret. by destruct (f x). Qed.

Lemma Eff_bind_val {A B} (x : A) (f : A → Eff B) : ((([], inr x) : Eff A) ≫= f) = f x.
Proof. apply Eff_bind_ret. Qed.

Lemma applyUserInfo_same ui l : sameSubject l (applyUserInfo ui l).
Proof.
  unfold applyUserInfo. destruct ui as [u|]; [|by repeat split].
  destruct (truthy (prop u "id")), (truthy (prop u "roleName")); by repeat split.
Qed.

Lemma set_metadata_same v l l0 : sameSubject l0 l → sameSubject l0 (set_metadata v l).
Proof. by intros (? & ? & ? & ? & ? & ? & ?). Qed.

(** The hook block emits nothing by itself. *)
Lemma enrich_events rule ctx md l0 : (enrich rule ctx md l0 0%nat).1.1 = [].
Proof.
  destruct rule as [s|name gm gu]; [done|].
  unfold enrich, mbind, Async_bind, current, await, mret, Async_ret.
  destruct gu as [fu|].
  - destruct (fu (ctx 0%nat)) as [ui|e| |e]; [|done..].
    destruct gm as [fm|]; [|done]. by destruct (fm (ctx 1%nat)).
  - destruct gm as [fm|]; [|done]. by destruct (fm (ctx 0%nat)).
Qed.

(** When the hook block returns: the record is the one it was given, with
    the user resolver's answer applied, if the rule has one, and one of
    the two merges as metadata; each hook was called on the context of its
    moment. *)
Lemma enrich_done rule ctx md l0 evs l tick :
  enrich rule ctx md l0 0%nat = (evs, Done l, tick) →
  evs = [] ∧ tick = S (hookTick rule) ∧ sameSubject l0 l
  ∧ ((∃ f extra, extractor rule = Some f ∧ f (ctx (hookTick rule)) = Resolves extra
                 ∧ metadata l = Some (spread md extra))
     ∨ (extractor rule = None
        ∧ metadata l = Some (spread md (Some (getDefaultMetaData (ctx (hookTick rule)))))))
  ∧ (∃ l1 mdl,
       l = set_metadata mdl l1
       ∧ ((userResolver rule = None ∧ l1 = l0)
          ∨ (∃ f ui, userResolver rule = Some f ∧ f (ctx 0%nat) = Resolves ui
                     ∧ l1 = applyUserInfo ui l0))).
Proof.
  destruct rule as [s|name gm gu].
  { unfold enrich, mbind, Async_bind, current, await, mret, Async_ret, hookTick. simpl.
    intros [= <- <- <-]. split; [done|]. split; [done|]. split; [by repeat split|].
    split; [by right|]. eexists _, _. split; [done|]. by left. }
  unfold enrich, mbind, Async_bind, current, await, mret, Async_ret, hookTick. simpl.
  destruct gu as [fu|].
  - destruct (fu (ctx 0%nat)) as [ui|e| |e] eqn:Hfu; [|done..].
    destruct gm as [fm|].
    + destruct (fm (ctx 1%nat)) as [extra|e| |e] eqn:Hfm; [|done..].
      intros [= <- <- <-]. split; [done|]. split; [done|].
      split; [apply set_metadata_same, applyUserInfo_same|].
      split; [left; by exists fm, extra|].
      eexists _, _. split; [done|]. right. by exists fu, ui.
    + intros [= <- <- <-]. split; [done|]. split; [done|].
      split; [apply set_metadata_same, applyUserInfo_same|].
      split; [by right|].
      eexists _, _. split; [done|]. right. by exists fu, ui.
  - destruct gm as [fm|].
    + destruct (fm (ctx 0%nat)) as [extra|e| |e] eqn:Hfm; [|done..].
      intros [= <- <- <-]. split; [done|]. split; [done|]. split; [by repeat split|].
      split; [left; by exists fm, extra|].
      eexists _, _. split; [done|]. by left.
    + intros [= <- <- <-]. split; [done|]. split; [done|]. split; [by repeat split|].
      split; [by right|]. eexists _, _. split; [done|]. by left.
Qed.

(** With hooks that resolve, the hook block returns. *)
Lemma enrich_okAt rule ctx md l0 :
  hooksResolveAt rule ctx →
  ∃ l, enrich rule ctx md l0 0%nat = ([], Done l, S (hookTick rule)).
Proof.
  intros [Hu Hm]. destruct rule as [s|name gm gu].
  { by eexists. }
  unfold hookTick in *. simpl in *.
  unfold enrich, mbind, Async_bind, current, await, mret, Async_ret.
  destruct gu as [fu|].
  - destruct (Hu fu eq_refl) as [ui ->].
    destruct gm as [fm|]; [|by eexists].
    destruct (Hm fm eq_refl) as [extra ->]. by eexists.
  - destruct gm as [fm|]; [|by eexists].
    destruct (Hm fm eq_refl) as [extra ->]. by eexists.
Qed.

Lemma hooksResolve_const rule ctx : hooksResolve rule ctx → hooksResolveAt rule (λ _, ctx).
Proof. by intros [? ?]. Qed.

Lemma sinkLogs_sinkLog m lg l :
  logger m = Some lg → sinkLogs (sinkLog m l).1 = [l].
Proof.
  intros Hl. unfold sinkLog. rewrite Hl. simpl. by destruct (log lg l).
Qed.

Lemma sinkLogs_sinkLog_inv m l l' : l' ∈ sinkLogs (sinkLog m l).1 → l' = l.
Proof.
  unfold sinkLog. destruct (logger m) as [lg|]; simpl; [|by intros ?%elem_of_nil].
  destruct (log lg l); simpl; by intros ->%list_elem_of_singleton.
Qed.

Lemma sinkLogs_catch ctx err : sinkLogs (outputCatch ctx err) = [].
Proof.
  unfold outputCatch. destruct (ctx_log ctx); [|done]. by destruct (readMessage err).
Qed.

(** The records of [output] are those of its [try] block. *)
Lemma sinkLogs_outputAt m ctx reqId st md :
  sinkLogs (outputAt m ctx reqId st md) = sinkLogs (outputBody m ctx reqId st md 0%nat).1.1.
Proof.
  unfold outputAt.
  destruct (outputBody m ctx reqId st md 0%nat) as [[evs [[]|err|]] tick]; simpl; try done.
  unfold sinkLogs. rewrite omap_app. fold (sinkLogs (outputCatch (ctx tick) err)).
  by rewrite sinkLogs_catch, app_nil_r.
Qed.

(** The [try] block once the rule is resolved and the base record
    built. *)
Lemma outputBody_matched m ctx reqId st md act p rule :
  ctx_action (ctx 0%nat) = Some act → params act = Some p →
  getAction (actionName act) (resourceName act) (resources m) = Some rule →
  outputBody m ctx reqId st md 0%nat =
  match enrich rule ctx md
          (set_status st (set_uuid reqId (baseRecord (ctx 0%nat) act (resourceUkOf p))))
          0%nat with
  | (evs, Done l, tick) =>
    match sinkLog m l with
    | (evs', inl err) => ((evs ++ evs')%list, Fails err, tick)
    | (evs', inr x) => ((evs ++ evs')%list, Done x, tick)
    end
  | (evs, Fails err, tick) => (evs, Fails err, tick)
  | (evs, Stuck, tick) => (evs, Stuck, tick)
  end.
Proof.
  intros Ha Hp Hr.
  unfold outputBody, mbind, Async_bind, current. rewrite Ha, Hr.
  rewrite (formatAuditData_ok (ctx 0%nat) act p Ha Hp).
  unfold sync, mret, Eff_ret. simpl.
  destruct (enrich rule ctx md _ 0%nat) as [[evs [l|err|]] tick]; [|done..].
  by destruct (sinkLog m l) as [evs' [err|x]].
Qed.

(** Every record handed to the sink was built from the context [output]
    was called on, for a rule that resolution returned, by the hook
    block. *)
Lemma output_recordAt m ctx reqId st md l :
  l ∈ sinkLogs (outputAt m ctx reqId st md) →
  ∃ act p rule,
    ctx_action (ctx 0%nat) = Some act ∧ params act = Some p
    ∧ getAction (actionName act) (resourceName act) (resources m) = Some rule
    ∧ enrich rule ctx md
        (set_status st (set_uuid reqId (baseRecord (ctx 0%nat) act (resourceUkOf p))))
        0%nat
      = ([], Done l, S (hookTick rule)).
Proof.
  rewrite sinkLogs_outputAt.
  destruct (ctx_action (ctx 0%nat)) as [act|] eqn:Ha.
  2: { unfold outputBody, mbind, Async_bind, current. rewrite Ha. by intros ?%elem_of_nil. }
  destruct (getAction (actionName act) (resourceName act) (resources m))
    as [rule|] eqn:Hr.
  2: { unfold outputBody, mbind, Async_bind, current. rewrite Ha, Hr.
       by intros ?%elem_of_nil. }
  destruct (params act) as [p|] eqn:Hp.
  2: { unfold outputBody, mbind, Async_bind, current, formatAuditData, formatResourceUk.
       rewrite Ha, Hr, Hp.
       destruct (splitResource (resourceName act)). by intros ?%elem_of_nil. }
  rewrite (outputBody_matched m ctx reqId st md act p rule Ha Hp Hr).
  pose proof (enrich_events rule ctx md
    (set_status st (set_uuid reqId (baseRecord (ctx 0%nat) act (resourceUkOf p))))) as Hev.
  destruct (enrich rule ctx md _ 0%nat) as [[evs [l1|err|]] tick] eqn:He;
    simpl in Hev; subst evs; [|simpl; by intros ?%elem_of_nil..].
  destruct (enrich_done _ _ _ _ _ _ _ He) as (_ & -> & _).
  destruct (sinkLog m l1) as [evs' r] eqn:Hs.
  intros Hin. exists act, p, rule. repeat split; try done.
  assert (l = l1) as ->; [|done].
  apply (sinkLogs_sinkLog_inv m l1 l). rewrite Hs. by destruct r.
Qed.

(** With a sink, a resolved rule and hooks that resolve, exactly one
    record is handed to the sink. *)
Lemma output_emitsAt m lg ctx reqId st md act p rule :
  logger m = Some lg → ctx_action (ctx 0%nat) = Some act → params act = Some p →
  getAction (actionName act) (resourceName act) (resources m) = Some rule →
  hooksResolveAt rule ctx →
  ∃ l, sinkLogs (outputAt m ctx reqId st md) = [l]
       ∧ enrich rule ctx md
           (set_status st (set_uuid reqId (baseRecord (ctx 0%nat) act (resourceUkOf p))))
           0%nat
         = ([], Done l, S (hookTick rule)).
Proof.
  intros Hl Ha Hp Hr Hh.
  destruct (enrich_okAt rule ctx md
    (set_status st (set_uuid reqId (baseRecord (ctx 0%nat) act (resourceUkOf p)))) Hh)
    as [l He].
  exists l. split; [|done].
  rewrite sinkLogs_outputAt, (outputBody_matched m ctx reqId st md act p rule Ha Hp Hr), He.
  pose proof (sinkLogs_sinkLog m lg l Hl) as Hs.
  by destruct (sinkLog m l) as [evs' [err|x]].
Qed.

(** The same on a context that does not change. *)
Lemma enrich_inv rule ctx md l0 evs l tick :
  enrich rule (λ _, ctx) md l0 0%nat = (evs, Done l, tick) →
  evs = [] ∧ sameSubject l0 l
  ∧ ((∃ f extra, extractor rule = Some f ∧ f ctx = Resolves extra
                 ∧ metadata l = Some (spread md extra))
     ∨ (extractor rule = None
        ∧ metadata l = Some (spread md (Some (getDefaultMetaData ctx))))).
Proof. intros (? & _ & ? & ? & _)%enrich_done. done. Qed.

Lemma enrich_result rule ctx md l0 evs l tick :
  enrich rule (λ _, ctx) md l0 0%nat = (evs, Done l, tick) →
  ∃ l1 mdl,
    l = set_metadata mdl l1
    ∧ ((userResolver rule = None ∧ l1 = l0)
       ∨ (∃ f ui, userResolver rule = Some f ∧ f ctx = Resolves ui
                  ∧ l1 = applyUserInfo ui l0)).
Proof. intros (_ & _ & _ & _ & ?)%enrich_done. done. Qed.

Lemma output_record m ctx reqId st md l :
  l ∈ sinkLogs (output m ctx reqId st md) →
  ∃ act p rule,
    ctx_action ctx = Some act ∧ params act = Some p
    ∧ getAction (actionName act) (resourceName act) (resources m) = Some rule
    ∧ enrich rule (λ _, ctx) md
        (set_status st (set_uuid reqId (baseRecord ctx act (resourceUkOf p)))) 0%nat
      = ([], Done l, S (hookTick rule)).
Proof. apply (output_recordAt m (λ _, ctx)). Qed.

Lemma output_emits m lg ctx reqId st md act p rule :
  logger m = Some lg → ctx_action ctx = Some act → params act = Some p →
  getAction (actionName act) (resourceName act) (resources m) = Some rule →
  hooksResolve rule ctx →
  ∃ l, sinkLogs (output m ctx reqId st md) = [l]
       ∧ enrich rule (λ _, ctx) md
           (set_status st (set_uuid reqId (baseRecord ctx act (resourceUkOf p)))) 0%nat
         = ([], Done l, S (hookTick rule)).
Proof.
  intros Hl Ha Hp Hr Hh.
  by apply (output_emitsAt m lg (λ _, ctx) reqId st md act p rule).
Qed.

End Dispatch.
(** ** Claims about the record builder *)

Lemma splitResource_plain name :
  lacks "." name = true → splitResource (Some name) = (name, "").
Proof.
  intros Hl. unfold splitResource, truthyStr.
  destruct (String.eqb name "") eqn:E; cbn [negb default from_option]; unfold id.
  - apply String.eqb_eq in E. by subst.
  - by rewrite (lacks_split "." name Hl).
Qed.

Lemma splitResource_dotted c rest :
  lacks "." c = true →
  splitResource (Some (c +:+ "." +:+ rest)) = (c, hd "" (split "." rest)).
Proof.
  intros Hl. unfold splitResource, truthyStr.
  change (c +:+ "." +:+ rest) with (c +:+ String "." rest).
  assert (String.eqb (c +:+ String "." rest) "" = false) as ->.
  { apply String.eqb_neq. by destruct c. }
  cbn [negb default from_option]. unfold id.
  rewrite (lacks_split_app "." c rest Hl).
  pose proof (split_ne "." rest). by destruct (split "." rest).
Qed.

(** C6 (amended): the subject key favors the key list over the
    single-record filter token.  A non-empty key list is joined by commas,
    whether or not a token is present; without one, a truthy token is used
    as it is; without either the subject key is the empty string. *)
Theorem subject_key_favors_key_list (ctx : Ctx) (act : CtxAction) (p : ActionParams) :
  ctx_action ctx = Some act → params act = Some p →
  (∀ keys, filterKeys p = Some keys → keys ≠ [] →
     formatResourceUk ctx = mret (VStr (join "," keys)))
  ∧ (filterKeys p = None ∨ filterKeys p = Some [] → truthy (filterByTk p) = true →
     formatResourceUk ctx = mret (filterByTk p))
  ∧ (filterKeys p = None ∨ filterKeys p = Some [] → truthy (filterByTk p) = false →
     formatResourceUk ctx = mret (VStr "")).
Proof.
  intros Ha Hp. rewrite (formatResourceUk_ok ctx act p Ha Hp). unfold resourceUkOf.
  split; [|split].
  - intros keys -> Hne. by destruct keys.
  - intros [-> | ->] ->; done.
  - intros [-> | ->] ->; done.
Qed.

Lemma subject_key_favors_key_list_witness :
  formatResourceUk (sampleCtx "users" "update" bothKeys VNull) = mret (VStr "name,email").
Proof.
  apply (proj1 (subject_key_favors_key_list
                  (sampleCtx "users" "update" bothKeys VNull) _ bothKeys eq_refl eq_refl)
               ["name"; "email"]); done.
Defined.

(** C6 as stated fails: with the token ["7"] and the key list
    [name, email] both present, the subject key is the joined key list, not
    the token. *)
Lemma subject_key_token_not_favored :
  truthy (filterByTk bothKeys) = true
  ∧ formatResourceUk (sampleCtx "users" "update" bothKeys VNull) = mret (VStr "name,email")
  ∧ formatResourceUk (sampleCtx "users" "update" bothKeys VNull)
    ≠ mret (filterByTk bothKeys).
Proof. split; [done|]. split; [done|]. discriminate. Qed.

(** C9 (amended): the record's collection is the resource name up to its
    first dot, and its association is the segment between the first and
    the second dot, which is the whole remainder when the name has exactly
    one dot; a name without a dot is the collection, with an empty
    association. *)
Theorem resource_split_into_first_two_segments
  (m : AuditManager) (ctx : Ctx) (reqId : JsVal) (st : Z) (md : Obj) (l : AuditLog)
  (act : CtxAction) (name : string) :
  l ∈ sinkLogs (output m ctx reqId st md) →
  ctx_action ctx = Some act → resourceName act = Some name →
  (lacks "." name = true → collection l = name ∧ association l = "")
  ∧ (∀ c rest, name = c +:+ "." +:+ rest → lacks "." c = true →
       collection l = c ∧ association l = hd "" (split "." rest)
       ∧ (lacks "." rest = true → association l = rest)).
Proof.
  intros (act' & p & rule & Ha' & Hp & Hr & He)%output_record Ha Hn.
  rewrite Ha in Ha'. injection Ha' as <-.
  apply enrich_inv in He as (_ & (_ & _ & Hc & Has & _) & _).
  simpl in Hc, Has. rewrite Hn in Hc, Has. rewrite Hc, Has.
  split.
  - intros Hl. by rewrite (splitResource_plain name Hl).
  - intros c rest -> Hl. rewrite (splitResource_dotted c rest Hl). simpl.
    split; [done|]. split; [done|].
    intros Hr'. by rewrite (lacks_split "." rest Hr').
Qed.

Lemma resource_split_into_first_two_segments_witness :
  ∃ l, sinkLogs (output (managerWith (Some okSink) [ActionString "create"])
                   (sampleCtx "posts.comments" "create" noKeys VNull) (VStr "req-1") 1 ∅) = [l]
       ∧ collection l = "posts" ∧ association l = "comments".
Proof.
  destruct (output_emits (managerWith (Some okSink) [ActionString "create"]) okSink
              (sampleCtx "posts.comments" "create" noKeys VNull) (VStr "req-1") 1 ∅
              _ noKeys (ActionObject "create" None None) eq_refl eq_refl eq_refl eq_refl)
    as (l & Hl & _).
  { split; intros f Hf; discriminate Hf. }
  exists l. split; [done|].
  destruct (resource_split_into_first_two_segments _ _ _ _ _ l _ "posts.comments"
              ltac:(rewrite Hl; left) eq_refl eq_refl) as [_ H].
  destruct (H "posts" "comments" eq_refl eq_refl) as (Hc & _ & Ha).
  split; [done|]. by apply Ha.
Defined.

(** C9 as stated fails: for the resource name [posts.comments.author] the
    association is [comments], not the remainder [comments.author]. *)
Lemma association_is_not_the_remainder :
  ∃ l, formatAuditData (sampleCtx "posts.comments.author" "create" noKeys VNull) = mret l
       ∧ collection l = "posts"
       ∧ association l = "comments"
       ∧ association l ≠ "comments.author".
Proof. eexists. split; [reflexivity|]. simpl. repeat split; discriminate. Qed.

(** The classifiers of the source on the values: a buffer is a buffer,
    every stream class is a stream, and nothing else is either. *)
Lemma plainData_classifiers (v : JsVal) :
  plainData v = negb (isBuffer v) && negb (isStream v).
Proof. destruct v as [| | | | | | | |[]]; reflexivity. Qed.

Lemma getDefaultMetaData_parts (ctx : Ctx) :
  (∀ bytes, ctx_body ctx = VBuffer bytes →
     responseBody (getDefaultMetaData ctx) = Some VNull)
  ∧ (∀ cls, ctx_body ctx = VStream cls →
     responseBody (getDefaultMetaData ctx) = Some VNull)
  ∧ (plainData (ctx_body ctx) = true → truthy (ctx_body ctx) = true →
     responseBody (getDefaultMetaData ctx) = Some (ctx_body ctx))
  ∧ (truthy (ctx_body ctx) = false →
     responseBody (getDefaultMetaData ctx) = Some VNull)
  ∧ requestPart (getDefaultMetaData ctx)
    = Some (VObj {[ "params" := req_params (request ctx);
                    "query" := req_query (request ctx);
                    "body" := req_body (request ctx) ]}).
Proof.
  unfold getDefaultMetaData, responseBody, requestPart.
  rewrite <- plainData_classifiers.
  split; [|split; [|split; [|split]]].
  - by intros bytes ->.
  - by intros cls ->.
  - by intros -> ->.
  - by intros ->.
  - done.
Qed.

(** C7 (amended): when the response body is a binary buffer or a stream
    of any of the four classes, the default metadata carries [null] in its
    response body field, the body itself never being embedded; a truthy
    plain-data body is embedded as it is; a falsy body is recorded as
    [null] as well.  The request part always holds the request's params,
    query and body. *)
Theorem default_metadata_response_body (ctx : Ctx) :
  (∀ bytes, ctx_body ctx = VBuffer bytes →
     responseBody (getDefaultMetaData ctx) = Some VNull)
  ∧ (∀ cls, ctx_body ctx = VStream cls →
     responseBody (getDefaultMetaData ctx) = Some VNull)
  ∧ (plainData (ctx_body ctx) = true → truthy (ctx_body ctx) = true →
     responseBody (getDefaultMetaData ctx) = Some (ctx_body ctx))
  ∧ (truthy (ctx_body ctx) = false →
     responseBody (getDefaultMetaData ctx) = Some VNull)
  ∧ requestPart (getDefaultMetaData ctx)
    = Some (VObj {[ "params" := req_params (request ctx);
                    "query" := req_query (request ctx);
                    "body" := req_body (request ctx) ]}).
Proof. apply getDefaultMetaData_parts. Qed.

Lemma default_metadata_response_body_witness :
  responseBody (getDefaultMetaData (sampleCtx "files" "download" noKeys (VStream Duplex)))
  = Some VNull
  ∧ responseBody (getDefaultMetaData (sampleCtx "files" "download" noKeys (VBuffer "PK")))
    = Some VNull
  ∧ responseBody (getDefaultMetaData
                    (sampleCtx "posts" "create" noKeys (VObj {[ "id" := VNum 3 ]})))
    = Some (VObj {[ "id" := VNum 3 ]}).
Proof.
  split; [|split].
  - apply (proj1 (proj2 (default_metadata_response_body
                           (sampleCtx "files" "download" noKeys (VStream Duplex))))
             Duplex).
    reflexivity.
  - apply (proj1 (default_metadata_response_body
                    (sampleCtx "files" "download" noKeys (VBuffer "PK")))
             "PK").
    reflexivity.
  - apply (proj1 (proj2 (proj2 (default_metadata_response_body
                                  (sampleCtx "posts" "create" noKeys
                                     (VObj {[ "id" := VNum 3 ]}))))));
      reflexivity.
Defined.

(** C7 as stated fails: a plain-data body that is falsy, here the number
    [0], is recorded as [null] and not as it is; and for a buffer the
    response body field is not left out, it is there and holds [null]. *)
Lemma falsy_body_is_not_embedded :
  plainData (VNum 0) = true
  ∧ isBuffer (VNum 0) = false ∧ isStream (VNum 0) = false
  ∧ responseBody (getDefaultMetaData (sampleCtx "posts" "destroy" noKeys (VNum 0)))
    ≠ Some (VNum 0)
  ∧ responseBody (getDefaultMetaData (sampleCtx "posts" "destroy" noKeys (VNum 0)))
    = Some VNull
  ∧ responseBody (getDefaultMetaData (sampleCtx "files" "download" noKeys (VBuffer "PK")))
    ≠ None.
Proof. repeat split; discriminate. Qed.

Lemma spread_lookup (md : Obj) (extra : option Obj) (k : string) :
  spread md extra !! k =
  match extra ≫= (λ e : Obj, e !! k) with
  | Some v => Some v
  | None => md !! k
  end.
Proof.
  destruct extra as [e|]; simpl; [|done].
  rewrite lookup_union. by destruct (e !! k), (md !! k).
Qed.

(** C5: the metadata of every record handed to the sink is one of two
    merges.  If the matched rule has a metadata extractor, it is the
    caller's metadata overlaid with the extractor's output, the
    extractor's fields winning, and nothing of the default metadata; if it
    has none, it is the caller's metadata overlaid with the default
    metadata. *)
Theorem metadata_is_one_of_two_merges
  (m : AuditManager) (ctx : Ctx) (reqId : JsVal) (st : Z) (md : Obj) (l : AuditLog) :
  l ∈ sinkLogs (output m ctx reqId st md) →
  ∃ act rule,
    ctx_action ctx = Some act
    ∧ getAction (actionName act) (resourceName act) (resources m) = Some rule
    ∧ ((∃ f extra,
          extractor rule = Some f ∧ f ctx = Resolves extra
          ∧ metadata l = Some (spread md extra)
          ∧ (∀ k, spread md extra !! k =
                  match extra ≫= (λ e : Obj, e !! k) with
                  | Some v => Some v
                  | None => md !! k
                  end))
       ∨ (extractor rule = None
          ∧ metadata l = Some (spread md (Some (getDefaultMetaData ctx)))
          ∧ (∀ k, spread md (Some (getDefaultMetaData ctx)) !! k =
                  match getDefaultMetaData ctx !! k with
                  | Some v => Some v
                  | None => md !! k
                  end))).
Proof.
  intros (act & p & rule & Ha & Hp & Hr & He)%output_record.
  exists act, rule. split; [done|]. split; [done|].
  apply enrich_inv in He as (_ & _ & [(f & extra & Hf & Hx & Hm)|[Hn Hm]]).
  - left. exists f, extra. repeat split; try done. intros k. apply spread_lookup.
  - right. repeat split; try done. intros k. apply (spread_lookup md (Some _) k).
Qed.

Lemma metadata_is_one_of_two_merges_witness :
  ∃ l, sinkLogs (output (managerWith (Some okSink)
                           [ActionString "create"; ActionObject "user:create" (Some e1) None])
                   (sampleCtx "user" "create" noKeys (VObj ∅)) (VStr "req-1") 1
                   {[ "note" := VStr "caller"; "trace" := VStr "t-1" ]}) = [l]
       ∧ metadata l = Some {[ "note" := VStr "from e1"; "trace" := VStr "t-1" ]}.
Proof.
  destruct (output_emits
              (managerWith (Some okSink)
                 [ActionString "create"; ActionObject "user:create" (Some e1) None])
              okSink (sampleCtx "user" "create" noKeys (VObj ∅)) (VStr "req-1") 1
              {[ "note" := VStr "caller"; "trace" := VStr "t-1" ]}
              _ noKeys (ActionObject "user:create" (Some e1) None)
              eq_refl eq_refl eq_refl eq_refl)
    as (l & Hl & _).
  { split; intros f Hf; [discriminate Hf|]. injection Hf as <-. by eexists. }
  exists l. split; [done|].
  destruct (metadata_is_one_of_two_merges _ _ _ _ _ l ltac:(rewrite Hl; left))
    as (act & rule & Ha & Hr & [(f & extra & Hf & Hx & Hm & _)|(Hn & _)]).
  - injection Ha as <-. simpl in Hr.
    assert (rule = ActionObject "user:create" (Some e1) None) as ->.
    { vm_compute in Hr. by injection Hr. }
    injection Hf as <-. injection Hx as <-. rewrite Hm. reflexivity.
  - exfalso. injection Ha as <-. simpl in Hr.
    assert (rule = ActionObject "user:create" (Some e1) None) as ->.
    { vm_compute in Hr. by injection Hr. }
    discriminate Hn.
Defined.

(** ** Interception pipeline (C2, C3, C4, C8) *)

Section Pipeline.

Lemma middleware_unfold m ctx next later ctx' thrown :
  next ctx = (ctx', thrown) →
  middleware m ctx next later =
  (Downstream :: match logger m with
                 | Some _ => outputAt m (timeline ctx' later) (reqId ctx)
                               (auditArgs ctx' thrown).1 (auditArgs ctx' thrown).2
                 | None => []
                 end, delivered thrown).
Proof. intros H. unfold middleware. rewrite H. by destruct (auditArgs ctx' thrown). Qed.

(** What the caller gets depends on the downstream handler alone,
    whatever the audit path does. *)
Lemma middleware_outcome m ctx next later :
  (middleware m ctx next later).2 = delivered (next ctx).2.
Proof.
  destruct (next ctx) as [ctx' thrown] eqn:H.
  by rewrite (middleware_unfold m ctx next later ctx' thrown H).
Qed.

Lemma sinkLog_shape m l :
  sinkLog m l = ([], inl (TypeErrorAt ReadingLogger)) ∧ logger m = None
  ∨ ∃ lg, logger m = Some lg
          ∧ ((∃ e, log lg l = SinkThrows e ∧ sinkLog m l = ([SinkLog l], inl (Raised e)))
             ∨ (log lg l = SinkFulfilled ∧ sinkLog m l = ([SinkLog l], inr tt))
             ∨ (∃ e, log lg l = SinkRejected e
                     ∧ sinkLog m l = ([SinkLog l; UnhandledRejection (Raised e)], inr tt))).
Proof.
  unfold sinkLog. destruct (logger m) as [lg|]; [|by left].
  right. exists lg. split; [done|]. simpl.
  destruct (log lg l) as [e| |e]; simpl; eauto 6.
Qed.

(** The three shapes of the [try] block of [output]: no event; the record
    handed to the sink, whose call returned or threw; the record and the
    rejection of the promise the sink returned. *)
Lemma outputBody_shape m ctx reqId st md :
  ∃ evs e tick,
    outputBody m ctx reqId st md 0%nat = (evs, e, tick)
    ∧ (evs = []
       ∨ (∃ l, evs = [SinkLog l])
       ∨ (∃ l v, evs = [SinkLog l; UnhandledRejection (Raised v)] ∧ e = Done tt)).
Proof.
  unfold outputBody, mbind, Async_bind, current.
  destruct (ctx_action (ctx 0%nat)) as [act|]; [|by eexists _, _, _; split; [|left]].
  destruct (getAction _ _ _) as [rule|]; [|by eexists _, _, _; split; [|left]].
  pose proof (formatAuditData_events (ctx 0%nat)) as Hf.
  destruct (formatAuditData (ctx 0%nat)) as [evs [e|base]]; simpl in *; subst evs.
  { by eexists _, _, _; split; [|left]. }
  pose proof (enrich_events rule ctx md (set_status st (set_uuid reqId base))) as He.
  destruct (enrich rule ctx md _ 0%nat) as [[evs [l|err|]] tick]; simpl in *; subst evs.
  2, 3: by eexists _, _, _; split; [|left].
  destruct (sinkLog_shape m l) as [[-> _]|(lg & _ & [(e & _ & ->)|[[_ ->]|(e & _ & ->)]])];
    simpl; eexists _, _, _; (split; [done|]); eauto 6.
Qed.

(** The shapes the events of [output] can take. *)
Lemma outputAt_shape m ctx reqId st md :
  outputAt m ctx reqId st md = []
  ∨ (∃ msg, outputAt m ctx reqId st md = [Diagnostic msg])
  ∨ (∃ e, outputAt m ctx reqId st md = [UnhandledRejection e])
  ∨ (∃ l, outputAt m ctx reqId st md = [SinkLog l])
  ∨ (∃ l msg, outputAt m ctx reqId st md = [SinkLog l; Diagnostic msg])
  ∨ (∃ l e, outputAt m ctx reqId st md = [SinkLog l; UnhandledRejection e]).
Proof.
  unfold outputAt.
  destruct (outputBody_shape m ctx reqId st md)
    as (evs & e & tick & -> & [-> | [[l ->] | (l & v & -> & ->)]]).
  - destruct e as [[]|err|]; [by left| |by left].
    unfold outputCatch. destruct (ctx_log (ctx tick)); [|by left].
    destruct (readMessage err); simpl; eauto 8.
  - destruct e as [[]|err|]; [eauto 8| |eauto 8].
    unfold outputCatch. destruct (ctx_log (ctx tick)); [|simpl; eauto 8].
    destruct (readMessage err); simpl; eauto 10.
  - eauto 10.
Qed.

(** The audit path never runs the downstream handler. *)
Lemma output_no_downstream m ctx reqId st md :
  downstreamRuns (outputAt m ctx reqId st md) = 0%nat.
Proof.
  destruct (outputAt_shape m ctx reqId st md)
    as [->|[(e & ->)|[(e & ->)|[(l & ->)|[(l & e & ->)|(l & e & ->)]]]]]; done.
Qed.

Lemma downstream_once m ctx next later :
  downstreamRuns (middleware m ctx next later).1 = 1%nat.
Proof.
  destruct (next ctx) as [ctx' thrown] eqn:H.
  rewrite (middleware_unfold m ctx next later ctx' thrown H). cbn [fst].
  destruct (logger m); [|done].
  unfold downstreamRuns. simpl. f_equal. apply output_no_downstream.
Qed.

(** A request that matches no rule, or a manager without a sink: the
    handler runs, nothing else happens, and the caller gets what the
    [catch] and [finally] of the middleware leave. *)
Lemma middleware_skips m ctx next later :
  (∃ act, ctx_action (next ctx).1 = Some act
          ∧ getAction (actionName act) (resourceName act) (resources m) = None)
  ∨ logger m = None →
  middleware m ctx next later = ([Downstream], delivered (next ctx).2).
Proof.
  intros H. destruct (next ctx) as [ctx' thrown] eqn:Hn.
  rewrite (middleware_unfold m ctx next later ctx' thrown Hn). simpl in *.
  destruct H as [(act & Ha & Hr)| ->]; [|done].
  destruct (logger m); [|done].
  unfold outputAt, outputBody, mbind, Async_bind, current. simpl.
  by rewrite Ha, Hr.
Qed.

(** How the hook block fails: in the user resolver, or, the user resolver
    having resolved, in the metadata extractor. *)
Lemma enrich_fails rule ctx md l0 evs err tick :
  enrich rule ctx md l0 0%nat = (evs, Fails err, tick) →
  (∃ f v, userResolver rule = Some f
          ∧ ((f (ctx 0%nat) = Rejects v ∧ tick = 1%nat)
             ∨ (f (ctx 0%nat) = Throws v ∧ tick = 0%nat))
          ∧ err = Raised v)
  ∨ ((∀ g, userResolver rule = Some g → ∃ u, g (ctx 0%nat) = Resolves u)
     ∧ ∃ f v, extractor rule = Some f
              ∧ ((f (ctx (hookTick rule)) = Rejects v ∧ tick = S (hookTick rule))
                 ∨ (f (ctx (hookTick rule)) = Throws v ∧ tick = hookTick rule))
              ∧ err = Raised v).
Proof.
  destruct rule as [s|name gm gu]; [done|].
  unfold enrich, mbind, Async_bind, current, await, mret, Async_ret, hookTick. simpl.
  destruct gu as [fu|].
  - destruct (fu (ctx 0%nat)) as [ui|e| |e] eqn:Hfu.
    + destruct gm as [fm|]; [|done].
      destruct (fm (ctx 1%nat)) as [extra|e| |e] eqn:Hfm; [done| |done|].
      * intros [= <- <- <-]. right. split.
        { intros g [= <-]. by exists ui. }
        exists fm, e. split; [done|]. split; [|done]. by left.
      * intros [= <- <- <-]. right. split.
        { intros g [= <-]. by exists ui. }
        exists fm, e. split; [done|]. split; [|done]. by right.
    + intros [= <- <- <-]. left. exists fu, e. split; [done|]. split; [|done]. by left.
    + done.
    + intros [= <- <- <-]. left. exists fu, e. split; [done|]. split; [|done]. by right.
  - destruct gm as [fm|]; [|done].
    destruct (fm (ctx 0%nat)) as [extra|e| |e] eqn:Hfm; [done| |done|].
    + intros [= <- <- <-]. right. split; [done|].
      exists fm, e. split; [done|]. split; [|done]. by left.
    + intros [= <- <- <-]. right. split; [done|].
      exists fm, e. split; [done|]. split; [|done]. by right.
Qed.

Lemma enrich_done_hooks rule ctx md l0 evs l tick :
  enrich rule ctx md l0 0%nat = (evs, Done l, tick) → hooksResolveAt rule ctx.
Proof.
  intros (_ & _ & _ & Hm & (l1 & mdl & _ & Hu))%enrich_done. split.
  - intros f Hf. destruct Hu as [[Hn _]|(g & ui & Hg & Hx & _)].
    + by rewrite Hn in Hf.
    + rewrite Hg in Hf. injection Hf as <-. by exists ui.
  - intros f Hf. destruct Hm as [(g & extra & Hg & Hx & _)|[Hn _]].
    + rewrite Hg in Hf. injection Hf as <-. by exists extra.
    + by rewrite Hn in Hf.
Qed.

(** Every failure of the audit path makes the [try] block of [output]
    throw that error, after at most the sink call. *)
Lemma auditFailure_thrown m ctx reqId st md err tick :
  AuditFailure m ctx reqId st md err tick →
  ∃ evs, outputBody m ctx reqId st md 0%nat = (evs, Fails err, tick)
         ∧ diagnostics evs = [] ∧ unhandled evs = [].
Proof.
  intros [Ha -> -> | act rule Ha Hr Hp -> -> | act p rule f v Ha Hp Hr Hf Hx ->
         | act p rule f v Ha Hp Hr Hu Hf Hx -> | act p rule Ha Hp Hr Hh Hl -> ->
         | act p rule lg l v Ha Hp Hr He Hl Hx ->].
  - exists []. unfold outputBody, mbind, Async_bind, current. by rewrite Ha.
  - exists []. unfold outputBody, mbind, Async_bind, current, formatAuditData, formatResourceUk.
    rewrite Ha, Hr, Hp. by destruct (splitResource (resourceName act)).
  - exists []. rewrite (outputBody_matched m ctx reqId st md act p rule Ha Hp Hr).
    destruct rule as [s|name gm gu]; [done|]. simpl in Hf. subst gu.
    unfold enrich, mbind, Async_bind, current, await, mret, Async_ret.
    by destruct Hx as [[-> ->] | [-> ->]].
  - exists []. rewrite (outputBody_matched m ctx reqId st md act p rule Ha Hp Hr).
    destruct rule as [s|name gm gu]; [done|]. unfold hookTick in *. simpl in Hf, Hu, Hx.
    subst gm.
    unfold enrich, mbind, Async_bind, current, await, mret, Async_ret.
    destruct gu as [g|].
    + destruct (Hu g eq_refl) as [u ->]. by destruct Hx as [[-> ->] | [-> ->]].
    + by destruct Hx as [[-> ->] | [-> ->]].
  - exists []. rewrite (outputBody_matched m ctx reqId st md act p rule Ha Hp Hr).
    destruct (enrich_okAt rule ctx md
      (set_status st (set_uuid reqId (baseRecord (ctx 0%nat) act (resourceUkOf p)))) Hh)
      as [l ->].
    unfold sinkLog. by rewrite Hl.
  - exists [SinkLog l].
    rewrite (outputBody_matched m ctx reqId st md act p rule Ha Hp Hr), He.
    unfold sinkLog. rewrite Hl. simpl. by rewrite Hx.
Qed.

(** Conversely, whenever the [try] block of [output] throws, it is in one
    of these ways. *)
Lemma thrown_auditFailure m ctx reqId st md evs err tick :
  outputBody m ctx reqId st md 0%nat = (evs, Fails err, tick) →
  AuditFailure m ctx reqId st md err tick.
Proof.
  destruct (ctx_action (ctx 0%nat)) as [act|] eqn:Ha.
  2: { unfold outputBody, mbind, Async_bind, current. rewrite Ha.
       intros [= <- <- <-]. by apply FailResolve. }
  destruct (getAction (actionName act) (resourceName act) (resources m))
    as [rule|] eqn:Hr.
  2: { unfold outputBody, mbind, Async_bind, current. by rewrite Ha, Hr. }
  destruct (params act) as [p|] eqn:Hp.
  2: { unfold outputBody, mbind, Async_bind, current, formatAuditData, formatResourceUk.
       rewrite Ha, Hr, Hp. destruct (splitResource (resourceName act)).
       intros [= <- <- <-]. by apply (FailBuild _ _ _ _ _ _ _ act rule). }
  rewrite (outputBody_matched m ctx reqId st md act p rule Ha Hp Hr).
  destruct (enrich rule ctx md _ 0%nat) as [[evs' [l|err'|]] tick'] eqn:He; [| |done].
  - pose proof (enrich_done_hooks _ _ _ _ _ _ _ He) as Hh.
    destruct (enrich_done _ _ _ _ _ _ _ He) as (-> & -> & _).
    destruct (sinkLog_shape m l)
      as [[Hs Hl]|(lg & Hl & [(e & Hx & Hs)|[[_ Hs]|(e & _ & Hs)]])]; rewrite Hs; [| |done..].
    + intros [= <- <- <-]. by apply (FailNoSink _ _ _ _ _ _ _ act p rule).
    + intros [= <- <- <-].
      by apply (FailSinkThrows _ _ _ _ _ _ _ act p rule lg l e).
  - intros [= <- <- <-].
    destruct (enrich_fails _ _ _ _ _ _ _ He) as [(f & v & Hf & Hx & ->)|(Hu & f & v & Hf & Hx & ->)].
    + by apply (FailUserResolver _ _ _ _ _ _ _ act p rule f v).
    + by apply (FailExtractor _ _ _ _ _ _ _ act p rule f v).
Qed.

(** What the [catch] of [output] reports after such a failure. *)
Lemma diagnostics_outputAt m ctx reqId st md err tick :
  AuditFailure m ctx reqId st md err tick →
  diagnostics (outputAt m ctx reqId st md)
  = (if ctx_log (ctx tick)
     then match readMessage err with Some msg => [msg] | None => [] end
     else [])
  ∧ unhandled (outputAt m ctx reqId st md)
    = (if ctx_log (ctx tick)
       then match readMessage err with
            | Some _ => []
            | None => [TypeErrorAt ReadingMessage]
            end
       else []).
Proof.
  intros (evs & Hb & Hd & Hu)%auditFailure_thrown.
  unfold outputAt. rewrite Hb. unfold diagnostics, unhandled in *.
  rewrite !omap_app, Hd, Hu. unfold outputCatch.
  destruct (ctx_log (ctx tick)); [|done]. by destruct (readMessage err).
Qed.

End Pipeline.
(** C8 (the code diverges): for a request that matches no registered
    rule, or without a sink, the pipeline hands nothing to the sink and
    runs the downstream handler once; but when the handler throws [null]
    or [undefined], the caller does not get that value: the [catch] of the
    middleware reads [err.message] before it reaches [throw err], and the
    [TypeError] of that read is what the caller gets. *)
Theorem unmatched_handler_error_is_replaced
  (m : AuditManager) (ctx ctx' : Ctx) (next : Next) (later : nat → Ctx) (v : JsVal) :
  next ctx = (ctx', Some v) → v = VNull ∨ v = VUndefined →
  (∃ act, ctx_action ctx' = Some act
          ∧ getAction (actionName act) (resourceName act) (resources m) = None)
  ∨ logger m = None →
  middleware m ctx next later = ([Downstream], Some (TypeErrorAt ReadingMessage))
  ∧ (middleware m ctx next later).2 ≠ Some (Raised v)
  ∧ sinkLogs (middleware m ctx next later).1 = []
  ∧ downstreamRuns (middleware m ctx next later).1 = 1%nat.
Proof.
  intros Hn Hv H.
  assert (middleware m ctx next later = ([Downstream], Some (TypeErrorAt ReadingMessage)))
    as ->.
  { rewrite (middleware_skips m ctx next later).
    - rewrite Hn. by destruct Hv as [-> | ->].
    - by rewrite Hn. }
  done.
Qed.

Lemma unmatched_handler_error_is_replaced_witness :
  getAction "list" (Some "user")
    (resources (managerWith (Some okSink) [ActionString "user:create"])) = None
  ∧ middleware (managerWith (Some okSink) [ActionString "user:create"])
      (sampleCtx "user" "list" noKeys VNull) (throwsValue VNull)
      (thereafter (sampleCtx "user" "list" noKeys VNull))
    = ([Downstream], Some (TypeErrorAt ReadingMessage)).
Proof.
  split; [reflexivity|].
  apply (unmatched_handler_error_is_replaced
           (managerWith (Some okSink) [ActionString "user:create"])
           (sampleCtx "user" "list" noKeys VNull) _ (throwsValue VNull)
           (thereafter (sampleCtx "user" "list" noKeys VNull)) VNull eq_refl).
  - by left.
  - left. eexists. split; reflexivity.
Defined.

(** C2 (amended): for a request that completes successfully and matches a
    registered rule, with a sink configured, [params] on the action and
    rule hooks that resolve, exactly one record is handed to the sink.  Its
    [status] is the success flag [1], which overwrote the HTTP status: the
    HTTP status is not in the record.  When the rule has no metadata
    extractor, the metadata is the default metadata of the context as it
    is when the audit path reads it, which is at once when the rule has no
    user resolver, and after the caller has gone on when it has one: the
    request's params, query and body, and the response body when it is
    truthy plain data. *)
Theorem successful_request_record
  (m : AuditManager) (lg : AuditLogger) (ctx ctx' : Ctx) (next : Next) (later : nat → Ctx)
  (act : CtxAction) (p : ActionParams) (rule : Action) :
  next ctx = (ctx', None) → logger m = Some lg →
  ctx_action ctx' = Some act → params act = Some p →
  getAction (actionName act) (resourceName act) (resources m) = Some rule →
  hooksResolveAt rule (timeline ctx' later) →
  (middleware m ctx next later).2 = None
  ∧ ∃ l mdl,
      sinkLogs (middleware m ctx next later).1 = [l]
      ∧ uuid l = reqId ctx ∧ status l = 1%Z ∧ metadata l = Some mdl
      ∧ (extractor rule = None →
         ∃ read,
           read = timeline ctx' later (hookTick rule)
           ∧ (userResolver rule = None → read = ctx')
           ∧ (userResolver rule ≠ None → read = later 0%nat)
           ∧ mdl = getDefaultMetaData read
           ∧ mdl !! "status" = None
           ∧ requestPart mdl = Some (VObj {[ "params" := req_params (request read);
                                              "query" := req_query (request read);
                                              "body" := req_body (request read) ]})
           ∧ (plainData (ctx_body read) = true → truthy (ctx_body read) = true →
              responseBody mdl = Some (ctx_body read))).
Proof.
  intros Hn Hl Ha Hp Hr Hh.
  rewrite (middleware_unfold m ctx next later ctx' None Hn), Hl. cbn [fst snd].
  split; [done|].
  destruct (output_emitsAt m lg (timeline ctx' later) (reqId ctx) 1 ∅ act p rule
              Hl Ha Hp Hr Hh) as (l & Hs & He).
  apply enrich_done in He as (_ & _ & (Hu & Hst & _) & Hmd & _).
  destruct Hmd as [(f & extra & Hf & Hx & Hmd)|[Hnone Hmd]].
  - exists l, (spread ∅ extra).
    split; [exact Hs|]. split; [exact Hu|]. split; [exact Hst|]. split; [exact Hmd|].
    intros Hnone. by rewrite Hnone in Hf.
  - exists l, (getDefaultMetaData (timeline ctx' later (hookTick rule))).
    split; [exact Hs|]. split; [exact Hu|]. split; [exact Hst|].
    split. { rewrite Hmd. simpl. by rewrite (right_id_L ∅ (∪)). }
    intros _. exists (timeline ctx' later (hookTick rule)).
    split; [done|].
    split. { intros Hno. unfold hookTick. by rewrite Hno. }
    split. { intros Hyes. unfold hookTick. by destruct (userResolver rule). }
    split; [done|]. split; [done|].
    destruct (getDefaultMetaData_parts (timeline ctx' later (hookTick rule)))
      as (_ & _ & Hb & _ & Hq).
    split; [exact Hq|exact Hb].
Qed.

Lemma successful_request_record_witness :
  ∃ l, sinkLogs (middleware
                   (managerWith (Some okSink)
                      [ActionObject "auth:signIn" None (Some idOnlyResolver)])
                   (sampleCtx "auth" "signIn" noKeys (VObj {[ "id" := VNum 3 ]}))
                   returns
                   (thereafter (sampleCtx "auth" "signIn" noKeys (VStr "sent")))).1 = [l]
       ∧ status l = 1%Z
       ∧ metadata l = Some (getDefaultMetaData
                              (sampleCtx "auth" "signIn" noKeys (VStr "sent"))).
Proof.
  destruct (successful_request_record
              (managerWith (Some okSink)
                 [ActionObject "auth:signIn" None (Some idOnlyResolver)]) okSink
              (sampleCtx "auth" "signIn" noKeys (VObj {[ "id" := VNum 3 ]})) _ returns
              (thereafter (sampleCtx "auth" "signIn" noKeys (VStr "sent")))
              _ noKeys (ActionObject "auth:signIn" None (Some idOnlyResolver))
              eq_refl eq_refl eq_refl eq_refl eq_refl)
    as (_ & l & mdl & Hs & _ & Hst & Hmd & Hdef).
  { split; intros f Hf; [|discriminate Hf]. injection Hf as <-. by eexists. }
  exists l. split; [done|]. split; [done|].
  destruct (Hdef eq_refl) as (read & -> & _ & _ & -> & _). done.
Defined.

(** C2 as stated fails.  A successful request whose response status is
    200 yields a record whose [status] is 1, and 200 is nowhere in it; and
    with a rule that has a metadata extractor the metadata holds no request
    or response part. *)
Lemma success_record_lacks_http_status :
  (∃ l mdl,
     sinkLogs (middleware (managerWith (Some okSink) [ActionString "create"])
                 (sampleCtx "posts" "create" noKeys (VObj {[ "id" := VNum 3 ]}))
                 returns
                 (thereafter (sampleCtx "posts" "create" noKeys (VObj {[ "id" := VNum 3 ]})))).1
     = [l]
     ∧ response_status (sampleCtx "posts" "create" noKeys (VObj {[ "id" := VNum 3 ]})) = 200%Z
     ∧ status l = 1%Z
     ∧ status l ≠ response_status (sampleCtx "posts" "create" noKeys (VObj {[ "id" := VNum 3 ]}))
     ∧ metadata l = Some mdl ∧ mdl !! "status" = None)
  ∧ (∃ l mdl,
       sinkLogs (middleware (managerWith (Some okSink)
                               [ActionObject "user:create" (Some e1) None])
                   (sampleCtx "user" "create" noKeys (VObj {[ "id" := VNum 3 ]}))
                   returns
                   (thereafter (sampleCtx "user" "create" noKeys (VObj {[ "id" := VNum 3 ]})))).1
       = [l]
       ∧ metadata l = Some mdl ∧ requestPart mdl = None ∧ responseBody mdl = None).
Proof.
  split.
  - eexists; eexists. split; [reflexivity|]. simpl.
    split; [reflexivity|]. split; [reflexivity|]. split; [discriminate|].
    split; reflexivity.
  - eexists; eexists. split; [reflexivity|]. simpl. repeat split; reflexivity.
Qed.

(** C3 (amended): when the downstream handler throws an error, a value
    whose [message] can be read, the pipeline re-throws that very value to
    its caller, whatever the audit path does.  If moreover a sink is
    configured, the request matches a rule, its action has [params] and
    the rule's hooks resolve, exactly one record is handed to the sink;
    its [status] is the failure flag [0], and its metadata holds the
    error's message under [errMsg] and the status at failure time under
    [status], each unless the rule's extractor returns a field of that
    name, which then wins. *)
Theorem failed_request_record
  (m : AuditManager) (ctx ctx' : Ctx) (next : Next) (later : nat → Ctx) (err msg : JsVal) :
  next ctx = (ctx', Some err) → readMessageValue err = Some msg →
  (middleware m ctx next later).2 = Some (Raised err)
  ∧ ∀ lg act p rule,
      logger m = Some lg → ctx_action ctx' = Some act → params act = Some p →
      getAction (actionName act) (resourceName act) (resources m) = Some rule →
      hooksResolveAt rule (timeline ctx' later) →
      ∃ l mdl,
        sinkLogs (middleware m ctx next later).1 = [l]
        ∧ uuid l = reqId ctx ∧ status l = 0%Z ∧ metadata l = Some mdl
        ∧ (extractorOutput rule (timeline ctx' later (hookTick rule))
             ≫= (λ e : Obj, e !! "errMsg") = None →
           mdl !! "errMsg" = Some msg)
        ∧ (extractorOutput rule (timeline ctx' later (hookTick rule))
             ≫= (λ e : Obj, e !! "status") = None →
           mdl !! "status" = Some (VNum (ctx_status ctx'))).
Proof.
  intros Hn Hmsg. rewrite (middleware_unfold m ctx next later ctx' (Some err) Hn).
  unfold auditArgs, delivered. rewrite Hmsg. cbn [fst snd].
  split; [done|].
  intros lg act p rule Hl Ha Hp Hr Hh. rewrite Hl.
  destruct (output_emitsAt m lg (timeline ctx' later) (reqId ctx) 0
              (failureMetadata ctx' msg) act p rule Hl Ha Hp Hr Hh) as (l & Hs & He).
  apply enrich_done in He as (_ & _ & (Hu & Hst & _) & Hmd & _).
  destruct Hmd as [(f & extra & Hf & Hx & Hmd)|[Hnone Hmd]].
  - exists l, (spread (failureMetadata ctx' msg) extra).
    split; [exact Hs|]. split; [exact Hu|]. split; [exact Hst|]. split; [exact Hmd|].
    unfold extractorOutput. rewrite Hf, Hx.
    split; intros Hk; by rewrite spread_lookup, Hk.
  - exists l, (spread (failureMetadata ctx' msg)
                 (Some (getDefaultMetaData (timeline ctx' later (hookTick rule))))).
    split; [exact Hs|]. split; [exact Hu|]. split; [exact Hst|]. split; [exact Hmd|].
    split; intros _; by rewrite spread_lookup.
Qed.

Lemma failed_request_record_witness :
  (middleware (managerWith (Some okSink) [ActionString "create"])
     (sampleCtx "posts" "create" noKeys VNull) (throws "boom")
     (thereafter (sampleCtx "posts" "create" noKeys VNull))).2
  = Some (Raised (errorValue {| message := "boom" |}))
  ∧ ∃ l mdl,
      sinkLogs (middleware (managerWith (Some okSink) [ActionString "create"])
                  (sampleCtx "posts" "create" noKeys VNull) (throws "boom")
                  (thereafter (sampleCtx "posts" "create" noKeys VNull))).1 = [l]
      ∧ status l = 0%Z ∧ metadata l = Some mdl
      ∧ mdl !! "errMsg" = Some (VStr "boom")
      ∧ mdl !! "status" = Some (VNum 200).
Proof.
  destruct (failed_request_record
              (managerWith (Some okSink) [ActionString "create"])
              (sampleCtx "posts" "create" noKeys VNull) _ (throws "boom")
              (thereafter (sampleCtx "posts" "create" noKeys VNull))
              _ (VStr "boom") eq_refl eq_refl)
    as [Hout Hrec].
  split; [exact Hout|].
  destruct (Hrec okSink _ noKeys (ActionObject "create" None None)
              eq_refl eq_refl eq_refl eq_refl)
    as (l & mdl & Hs & _ & Hst & Hmd & He & Hc).
  { split; intros f Hf; discriminate Hf. }
  exists l, mdl. split; [exact Hs|]. split; [exact Hst|]. split; [exact Hmd|].
  split; [exact (He eq_refl)|exact (Hc eq_refl)].
Defined.

(** C3 as stated fails.  With a rule whose metadata extractor returns an
    [errMsg] field, the record's [errMsg] is the extractor's, not the
    message of the error thrown; and with a rule whose user resolver
    rejects, no record is handed to the sink at all. *)
Lemma failure_record_can_be_masked_or_missing :
  (∃ l mdl,
     sinkLogs (middleware (managerWith (Some okSink)
                             [ActionObject "user:create" (Some maskingExtractor) None])
                 (sampleCtx "user" "create" noKeys VNull) (throws "boom")
                 (thereafter (sampleCtx "user" "create" noKeys VNull))).1 = [l]
     ∧ metadata l = Some mdl
     ∧ mdl !! "errMsg" = Some (VStr "masked")
     ∧ mdl !! "errMsg" ≠ Some (VStr "boom"))
  ∧ getAction "create" (Some "user")
      (resources (managerWith (Some okSink)
                    [ActionObject "user:create" None (Some (rejectingHook "no session"))]))
    ≠ None
  ∧ sinkLogs (middleware (managerWith (Some okSink)
                            [ActionObject "user:create" None (Some (rejectingHook "no session"))])
                (sampleCtx "user" "create" noKeys VNull) (throws "boom")
                (thereafter (sampleCtx "user" "create" noKeys VNull))).1 = []
  ∧ middleware (managerWith (Some okSink)
                  [ActionObject "user:create" None (Some (rejectingHook "no session"))])
      (sampleCtx "user" "create" noKeys VNull) (throws "boom")
      (thereafter (sampleCtx "user" "create" noKeys VNull))
    = ([Downstream; Diagnostic (MessageValue (VStr "no session"))],
       Some (Raised (errorValue {| message := "boom" |}))).
Proof.
  split; [|split; [|split]].
  - eexists; eexists. split; [reflexivity|]. simpl. split; [reflexivity|].
    split; [reflexivity|discriminate].
  - discriminate.
  - reflexivity.
  - reflexivity.
Qed.

(** C4 (amended): with a sink configured, an error raised while
    resolving the rule, building the record, calling or awaiting a rule
    hook, or thrown by the call of the sink is caught inside the pipeline:
    the caller gets what the downstream handler, which ran once, made the
    middleware deliver, and nothing of the audit path.  The error is
    reported through [ctx.log], once, when the context has one at that
    moment and the value caught is not [null] or [undefined]; without
    [ctx.log] nothing is reported. *)
Theorem audit_failure_is_contained
  (m : AuditManager) (lg : AuditLogger) (ctx ctx' : Ctx) (next : Next) (later : nat → Ctx)
  (thrown : option JsVal) (err : Thrown) (tick : nat) :
  next ctx = (ctx', thrown) → logger m = Some lg →
  AuditFailure m (timeline ctx' later) (reqId ctx)
    (auditArgs ctx' thrown).1 (auditArgs ctx' thrown).2 err tick →
  (middleware m ctx next later).2 = delivered thrown
  ∧ downstreamRuns (middleware m ctx next later).1 = 1%nat
  ∧ (ctx_log (timeline ctx' later tick) = true →
     ∀ msg, readMessage err = Some msg →
       diagnostics (middleware m ctx next later).1 = [msg]
       ∧ unhandled (middleware m ctx next later).1 = [])
  ∧ (ctx_log (timeline ctx' later tick) = false →
     diagnostics (middleware m ctx next later).1 = []
     ∧ unhandled (middleware m ctx next later).1 = []).
Proof.
  intros Hn Hl Hf.
  split; [by rewrite middleware_outcome, Hn|].
  split; [apply downstream_once|].
  apply diagnostics_outputAt in Hf as [Hd Hu].
  rewrite (middleware_unfold m ctx next later ctx' thrown Hn), Hl. cbn [fst].
  change (diagnostics (Downstream :: ?evs)) with (diagnostics evs).
  change (unhandled (Downstream :: ?evs)) with (unhandled evs).
  rewrite Hd, Hu. split.
  - by intros -> msg ->.
  - by intros ->.
Qed.

Lemma audit_failure_is_contained_witness :
  (middleware (managerWith (Some (throwingSink "db down")) [ActionString "create"])
     (sampleCtx "posts" "create" noKeys VNull) returns
     (thereafter (sampleCtx "posts" "create" noKeys VNull))).2 = None
  ∧ downstreamRuns
      (middleware (managerWith (Some (throwingSink "db down")) [ActionString "create"])
         (sampleCtx "posts" "create" noKeys VNull) returns
         (thereafter (sampleCtx "posts" "create" noKeys VNull))).1 = 1%nat
  ∧ diagnostics
      (middleware (managerWith (Some (throwingSink "db down")) [ActionString "create"])
         (sampleCtx "posts" "create" noKeys VNull) returns
         (thereafter (sampleCtx "posts" "create" noKeys VNull))).1
    = [MessageValue (VStr "db down")]
  ∧ unhandled
      (middleware (managerWith (Some (throwingSink "db down")) [ActionString "create"])
         (sampleCtx "posts" "create" noKeys VNull) returns
         (thereafter (sampleCtx "posts" "create" noKeys VNull))).1
    = [].
Proof.
  destruct (audit_failure_is_contained
              (managerWith (Some (throwingSink "db down")) [ActionString "create"])
              (throwingSink "db down")
              (sampleCtx "posts" "create" noKeys VNull) _ returns
              (thereafter (sampleCtx "posts" "create" noKeys VNull)) None
              (Raised (errorValue {| message := "db down" |})) 1%nat eq_refl eq_refl)
    as (Hout & Hruns & Hrep & _).
  { eapply (FailSinkThrows _ _ _ _ _ _ _ _ noKeys (ActionObject "create" None None)
              (throwingSink "db down")); reflexivity. }
  split; [exact Hout|]. split; [exact Hruns|].
  exact (Hrep eq_refl (MessageValue (VStr "db down")) eq_refl).
Defined.

(** C4 as stated fails.  When the context has no [ctx.log], a sink that
    throws is swallowed without any report; when the sink returns a
    promise that is rejected, nothing catches the rejection and nothing is
    reported, even with [ctx.log] there; and when a rule hook rejects with
    [null], the [catch] of [output] throws in its turn and nothing is
    reported either.  In all three cases the caller is not affected. *)
Lemma audit_failure_can_go_unreported :
  (∃ l,
     middleware (managerWith (Some (throwingSink "db down")) [ActionString "create"])
       {| reqId := VStr "req-2";
          ctx_action := Some {| resourceName := Some "posts"; actionName := "create";
                                params := Some noKeys |};
          request := sampleRequest; response_status := 200; ctx_status := 200;
          ctx_body := VNull; currentUserId := VNum 1; currentRole := VStr "admin";
          ctx_log := false |} returns
       (thereafter
          {| reqId := VStr "req-2";
             ctx_action := Some {| resourceName := Some "posts"; actionName := "create";
                                   params := Some noKeys |};
             request := sampleRequest; response_status := 200; ctx_status := 200;
             ctx_body := VNull; currentUserId := VNum 1; currentRole := VStr "admin";
             ctx_log := false |})
     = ([Downstream; SinkLog l], None)
     ∧ diagnostics [Downstream; SinkLog l] = [])
  ∧ (∃ l,
       middleware (managerWith (Some (rejectingSink "db down")) [ActionString "create"])
         (sampleCtx "posts" "create" noKeys VNull) returns
         (thereafter (sampleCtx "posts" "create" noKeys VNull))
       = ([Downstream; SinkLog l;
           UnhandledRejection (Raised (errorValue {| message := "db down" |}))], None)
       ∧ diagnostics [Downstream; SinkLog l;
                      UnhandledRejection (Raised (errorValue {| message := "db down" |}))]
         = []
       ∧ ctx_log (sampleCtx "posts" "create" noKeys VNull) = true)
  ∧ (middleware (managerWith (Some okSink) [ActionObject "user:create" (Some rejectsNull) None])
       (sampleCtx "user" "create" noKeys VNull) returns
       (thereafter (sampleCtx "user" "create" noKeys VNull))
     = ([Downstream; UnhandledRejection (TypeErrorAt ReadingMessage)], None)
     ∧ ctx_log (sampleCtx "user" "create" noKeys VNull) = true).
Proof.
  split; [|split].
  - eexists. split; reflexivity.
  - eexists. split; [reflexivity|]. split; reflexivity.
  - split; reflexivity.
Qed.

(** * Further properties of the code *)

(** ** Registration *)

Lemma lacks_app c s1 s2 : lacks c (s1 +:+ s2) = lacks c s1 && lacks c s2.
Proof.
  induction s1 as [|ch s1 IH]; simpl; [done|].
  by rewrite IH, andb_assoc.
Qed.

Lemma name_lacks c s : isNameChar c = false → allNameChars s = true → lacks c s = true.
Proof.
  intros Hc. induction s as [|ch s IH]; simpl; [done|].
  intros [Hch Hs]%andb_true_iff.
  rewrite (isNameChar_not c ch Hc Hch). simpl. by apply IH.
Qed.

(** X1: the three token grammars are disjoint, so the three consecutive
    [if]s of [registerAction] never overwrite one another: a token matches
    at most one of them. *)
Theorem grammars_are_disjoint (t : string) :
  ¬ (nameRegex t = true ∧ is_Some (resourceWildcardRegex t))
  ∧ ¬ (nameRegex t = true ∧ is_Some (resourceAndActionRegex t))
  ∧ ¬ (is_Some (resourceWildcardRegex t) ∧ is_Some (resourceAndActionRegex t)).
Proof.
  split; [|split].
  - intros [Hn [r Hw]]. destruct (bare_no_colon t Hn) as [E _]. by rewrite E in Hw.
  - intros [Hn [r He]]. destruct (bare_no_colon t Hn) as [_ E]. by rewrite E in He.
  - intros [[r Hw] [ra He]].
    apply wildcard_regex_iff in Hw as [-> Hr].
    by rewrite (wildcard_not_exact r Hr) in He.
Qed.

(** X2: a token that contains a character outside [a-zA-Z0-9_-], other
    than the colon and the star, matches no grammar: registering it leaves
    the registry as it was.  So a rule for a dotted association resource
    such as [posts.comments:create] cannot be registered. *)
Theorem foreign_character_drops_token (x : Action) (c : ascii) (rs : Resources) :
  lacks c (actionToken x) = false →
  isNameChar c = false → c ≠ ":"%char → c ≠ "*"%char →
  registerAction x rs = rs.
Proof.
  intros Hocc Hc Hcolon Hstar.
  assert (∀ s, nameRegex s = true → lacks c s = true) as Hname.
  { intros s Hs. apply name_lacks; [done|]. by apply nameRegex_all. }
  assert (Ascii.eqb ":" c = false) as Ec by (apply Ascii.eqb_neq; congruence).
  assert (Ascii.eqb "*" c = false) as Es by (apply Ascii.eqb_neq; congruence).
  assert (lacks c ":" = true) as Hl1.
  { change (negb (Ascii.eqb ":" c) && true = true). by rewrite Ec. }
  assert (lacks c ":*" = true) as Hl2.
  { change (negb (Ascii.eqb ":" c) && (negb (Ascii.eqb "*" c) && true) = true).
    by rewrite Ec, Es. }
  assert (parseToken (actionToken x) = ("", "")) as Hp.
  { destruct (parseToken_cases (actionToken x))
      as [E|[[Hn E]|[(r & Ht & Hn & E)|(r & a & Ht & Hn & Hn' & E)]]]; [done|..];
      exfalso.
    - by rewrite (Hname _ Hn) in Hocc.
    - rewrite Ht, lacks_app, (Hname _ Hn), Hl2 in Hocc. done.
    - rewrite Ht, !lacks_app, (Hname _ Hn), (Hname _ Hn'), Hl1 in Hocc. done. }
  unfold registerAction. by rewrite Hp.
Qed.

Lemma foreign_character_drops_token_witness :
  registerAction (ActionString "posts.comments:create")
    (registerActions [ActionString "create"] ∅)
  = registerActions [ActionString "create"] ∅.
Proof.
  apply (foreign_character_drops_token (ActionString "posts.comments:create") "."%char);
    [reflexivity|reflexivity|discriminate|discriminate].
Defined.

Lemma lastAt_snoc r a L x :
  lastAt r a (L ++ [x]) = if decide (slotOf x = (r, a)) then Some x else lastAt r a L.
Proof.
  unfold lastAt. rewrite filter_app, filter_cons, filter_nil.
  case_decide.
  - by rewrite last_snoc.
  - by rewrite app_nil_r.
Qed.

Lemma slot_batch L rs r a :
  (r, a) ≠ ("", "") →
  slot (registerActions L rs) r a =
  match lastAt r a L with
  | Some x => Some (saveAction x)
  | None => slot rs r a
  end.
Proof.
  intros Hne. induction L as [|x L IH] using rev_ind; [done|].
  rewrite registerActions_snoc, registerAction_slot, lastAt_snoc, IH.
  destruct (decide (slotOf x = (r, a))) as [E|E].
  - by rewrite decide_True.
  - by rewrite decide_False by (by intros [? _]).
Qed.

Lemma slot_batch_empty_keys L rs : slot (registerActions L rs) "" "" = slot rs "" "".
Proof.
  induction L as [|x L IH] using rev_ind; [done|].
  rewrite registerActions_snoc, registerAction_slot, IH.
  by rewrite decide_False by (by intros [_ ?]).
Qed.

Lemma lastAt_is_Some r a L x : x ∈ L → slotOf x = (r, a) → is_Some (lastAt r a L).
Proof.
  intros Hin Hs. unfold lastAt. apply last_is_Some.
  intros E. assert (x ∈ filter (λ y, slotOf y = (r, a)) L) as Hx.
  { by apply list_elem_of_filter. }
  rewrite E in Hx. by apply elem_of_nil in Hx.
Qed.

Lemma lastAt_elem r a L x : lastAt r a L = Some x → x ∈ L ∧ slotOf x = (r, a).
Proof.
  unfold lastAt. intros H.
  assert (x ∈ filter (λ y, slotOf y = (r, a)) L) as Hx.
  { apply last_Some in H as [l' ->]. apply elem_of_app. right. by left. }
  apply list_elem_of_filter in Hx as [? ?]. done.
Qed.

(** X3: looking a slot up after a batch of registrations gives the last
    registration of the batch that was written to that slot, with the
    token and hooks it was registered with; when the batch has none, the
    slot is what it was before.  The slot with two empty keys is never
    written. *)
Theorem slot_after_registerActions (L : list Action) (rs : Resources) (r a : string) :
  ((r, a) ≠ ("", "") →
   slot (registerActions L rs) r a =
   match lastAt r a L with
   | Some x => Some (saveAction x)
   | None => slot rs r a
   end)
  ∧ slot (registerActions L rs) "" "" = slot rs "" "".
Proof. split; [apply slot_batch|apply slot_batch_empty_keys]. Qed.

Lemma slot_after_registerActions_witness :
  slot (registerActions
          [ActionObject "user:create" (Some e1) None; ActionString "user:create"]
          (registerActions [ActionString "create"] ∅)) "user" "create"
  = Some (ActionObject "user:create" None None).
Proof.
  apply (proj1 (slot_after_registerActions
                  [ActionObject "user:create" (Some e1) None; ActionString "user:create"]
                  (registerActions [ActionString "create"] ∅) "user" "create")).
  discriminate.
Defined.

(** X4: registering again on the same slot replaces the rule, hooks
    included: the registry is the one the second registration alone would
    give. *)
Theorem reregistration_replaces (x y : Action) (rs : Resources) :
  slotOf x = slotOf y →
  registerAction y (registerAction x rs) = registerAction y rs.
Proof.
  unfold slotOf, registerAction. intros ->.
  destruct (parseToken (actionToken y)) as [r a].
  destruct (String.eqb r "" && String.eqb a ""); [done|].
  rewrite lookup_insert_eq. simpl.
  by rewrite insert_insert_eq, insert_insert_eq.
Qed.

Lemma reregistration_replaces_witness :
  registerAction (ActionString "auth:signIn")
    (registerAction (ActionObject "auth:signIn" (Some e1) None) ∅)
  = registerAction (ActionString "auth:signIn") ∅.
Proof. apply reregistration_replaces. reflexivity. Defined.

Lemma registerAction_commute x y rs :
  slotOf x ≠ slotOf y →
  registerAction x (registerAction y rs) = registerAction y (registerAction x rs).
Proof.
  unfold slotOf, registerAction.
  destruct (parseToken (actionToken x)) as [r1 a1], (parseToken (actionToken y)) as [r2 a2].
  intros Hne.
  destruct (String.eqb r1 "" && String.eqb a1 ""); [done|].
  destruct (String.eqb r2 "" && String.eqb a2 ""); [done|].
  destruct (decide (r1 = r2)) as [->|Hr].
  - assert (a1 ≠ a2) as Ha by congruence.
    rewrite !lookup_insert_eq. simpl.
    rewrite !insert_insert_eq. f_equal. by apply insert_insert_ne.
  - rewrite !lookup_insert_ne by done.
    by apply insert_insert_ne.
Qed.

(** X5: when the registrations of a batch are written to pairwise
    different slots, the registry they build does not depend on their
    order. *)
Theorem registration_order_is_irrelevant (L L' : list Action) (rs : Resources) :
  NoDup (slotOf <$> L) → L ≡ₚ L' →
  registerActions L rs = registerActions L' rs.
Proof.
  intros Hnd Hp. revert rs Hnd.
  induction Hp as [|x l l' Hp IH|x y l|l l' l'' Hp1 IH1 Hp2 IH2]; intros rs Hnd.
  - done.
  - simpl. apply IH. by apply NoDup_cons in Hnd as [_ ?].
  - simpl. f_equal. apply registerAction_commute.
    rewrite !fmap_cons in Hnd. apply NoDup_cons in Hnd as [Hin _].
    intros E. apply Hin. rewrite E. by left.
  - rewrite IH1 by done. apply IH2. by rewrite <- Hp1.
Qed.

Lemma registration_order_is_irrelevant_witness :
  registerActions [ActionString "create"; ActionString "user:*"; ActionString "user:create"] ∅
  = registerActions [ActionString "user:create"; ActionString "create"; ActionString "user:*"] ∅.
Proof.
  apply registration_order_is_irrelevant.
  - apply (bool_decide_unpack _). vm_compute. exact I.
  - symmetry.
    apply (Permutation_cons_append [ActionString "create"; ActionString "user:*"]
             (ActionString "user:create")).
Defined.

Lemma registerAction_bucket_grows x rs r :
  is_Some (rs !! r) → is_Some (registerAction x rs !! r).
Proof.
  unfold registerAction. destruct (parseToken (actionToken x)) as [r0 a0].
  destruct (String.eqb r0 "" && String.eqb a0 ""); [done|].
  destruct (decide (r0 = r)) as [->|Hr].
  - by rewrite lookup_insert_eq.
  - by rewrite lookup_insert_ne.
Qed.

(** X6: registration never removes anything: a bucket that exists and a
    slot that is occupied are still there after any batch of
    registrations. *)
Theorem registry_only_grows (L : list Action) (rs : Resources) (r a : string) :
  (is_Some (rs !! r) → is_Some (registerActions L rs !! r))
  ∧ (is_Some (slot rs r a) → is_Some (slot (registerActions L rs) r a)).
Proof.
  split.
  - intros H. induction L as [|x L IH] using rev_ind; [done|].
    rewrite registerActions_snoc. by apply registerAction_bucket_grows.
  - intros H. induction L as [|x L IH] using rev_ind; [done|].
    rewrite registerActions_snoc, registerAction_slot. by case_decide.
Qed.

Lemma registry_only_grows_witness :
  is_Some (slot (registerActions [ActionString "user:*"; ActionString "user:create"]
                   (registerActions [ActionString "user:create"] ∅)) "user" "create").
Proof.
  apply (proj2 (registry_only_grows
                  [ActionString "user:*"; ActionString "user:create"]
                  (registerActions [ActionString "user:create"] ∅) "user" "create")).
  by eexists.
Defined.

(** X7: once a wildcard [R:*] is registered for a resource [R] other than
    ['__default__'], every action under [R] resolves to a rule, whatever
    else is registered before or after and whatever the registry held. *)
Theorem wildcard_covers_every_action
  (L : list Action) (rs : Resources) (R : string) (x : Action) (A : string) :
  x ∈ L → isWildcard R x → R ≠ DEFAULT →
  is_Some (getAction A (Some R) (registerActions L rs)).
Proof.
  intros Hin Hw HR.
  destruct (isWildcard_slot R x Hw) as [Hs Hne].
  destruct (lastAt_is_Some R DEFAULT L x Hin Hs) as [y Hy].
  pose proof (slot_batch L rs R DEFAULT Hne) as Hslot. rewrite Hy in Hslot.
  assert (R ≠ "") as HR0.
  { destruct Hw as [_ Hn]. by apply nameRegex_nonempty. }
  rewrite getAction_named by done.
  unfold slot in Hslot.
  destruct (registerActions L rs !! R) as [bucket|]; [|done]. simpl in Hslot.
  destruct (getTruthy bucket A) as [v|]; [by eexists|].
  unfold getTruthy. rewrite Hslot, truthyAction_saveAction. by eexists.
Qed.

Lemma wildcard_covers_every_action_witness :
  is_Some (getAction "destroy" (Some "user")
             (registerActions [ActionString "user:*"; ActionString "user:create"] ∅)).
Proof.
  apply (wildcard_covers_every_action _ _ "user" (ActionString "user:*")).
  - by left.
  - by split.
  - discriminate.
Defined.

(** X8: resolution never invents a rule.  What [getAction] returns is a
    truthy value stored in the registry, in one of three slots: the exact
    slot of the resource, the wildcard slot of the resource, or the slot of
    the action in the global bucket. *)
Theorem resolution_returns_a_stored_rule
  (A : string) (res : option string) (rs : Resources) (v : Action) :
  getAction A res rs = Some v →
  truthyAction v = true
  ∧ (slot rs (default DEFAULT res) A = Some v
     ∨ slot rs (default DEFAULT res) DEFAULT = Some v
     ∨ slot rs DEFAULT A = Some v).
Proof.
  assert (∀ bucket k, getTruthy bucket k = Some v →
                      truthyAction v = true ∧ bucket !! k = Some v) as Hg.
  { intros bucket k. unfold getTruthy.
    destruct (bucket !! k) as [w|]; [|done].
    destruct (truthyAction w) eqn:Hw; [|done]. by intros [= ->]. }
  unfold getAction, slot.
  destruct (truthyStr res) eqn:Ht.
  - destruct res as [R|]; [|done]. simpl.
    destruct (String.eqb R DEFAULT) eqn:E.
    + apply String.eqb_eq in E. subst R.
      destruct (rs !! DEFAULT) as [bucket|]; [|done].
      intros [? ?]%Hg. simpl. auto.
    + destruct (rs !! R) as [bucket|]; simpl.
      * destruct (getTruthy bucket A) as [w|] eqn:Hw.
        -- intros [= ->]. apply Hg in Hw as [? ?]. auto.
        -- intros [? ?]%Hg. auto.
      * destruct (rs !! DEFAULT) as [bucket|]; [|done].
        intros [? ?]%Hg. simpl. auto.
  - simpl. destruct (rs !! DEFAULT) as [bucket|]; [|done].
    intros [? ?]%Hg. simpl. auto.
Qed.

Lemma resolution_returns_a_stored_rule_witness :
  truthyAction (ActionObject "user:*" None None) = true
  ∧ (slot (registerActions [ActionString "user:*"] ∅) "user" "update"
       = Some (ActionObject "user:*" None None)
     ∨ slot (registerActions [ActionString "user:*"] ∅) "user" DEFAULT
       = Some (ActionObject "user:*" None None)
     ∨ slot (registerActions [ActionString "user:*"] ∅) DEFAULT "update"
       = Some (ActionObject "user:*" None None)).
Proof.
  apply (resolution_returns_a_stored_rule "update" (Some "user")
           (registerActions [ActionString "user:*"] ∅)).
  reflexivity.
Defined.

(** X9: two registrations whose tokens keep clear of the reserved literal
    are written to the same slot only if they have the same token: apart
    from the reserved literal, a rule can only be replaced by registering
    its own token again. *)
Theorem tokens_have_their_own_slot (x y : Action) :
  avoidsSentinel (actionToken x) = true → avoidsSentinel (actionToken y) = true →
  slotOf x ≠ ("", "") → slotOf x = slotOf y →
  actionToken x = actionToken y.
Proof.
  intros Hx Hy Hne E. unfold slotOf in *.
  destruct (parseToken_cases (actionToken x))
    as [E1|[[Hn1 E1]|[(r1 & Ht1 & Hn1 & E1)|(r1 & a1 & Ht1 & Hn1 & Hn1' & E1)]]];
    [done|..];
    destruct (parseToken_cases (actionToken y))
      as [E2|[[Hn2 E2]|[(r2 & Ht2 & Hn2 & E2)|(r2 & a2 & Ht2 & Hn2 & Hn2' & E2)]]];
    rewrite E1, E2 in E; try (by rewrite E1, E in Hne).
  - by injection E.
  - injection E as <- _. by destruct (isWildcard_avoids DEFAULT y Hy (conj Ht2 Hn2)).
  - injection E as <- _.
    by destruct (isExact_avoids DEFAULT a2 y Hy (conj Ht2 (conj Hn2 Hn2'))) as [? _].
  - injection E as -> _. by destruct (isWildcard_avoids DEFAULT x Hx (conj Ht1 Hn1)).
  - injection E as <-. by rewrite Ht1, Ht2.
  - injection E as <- <-.
    by destruct (isExact_avoids r1 DEFAULT y Hy (conj Ht2 (conj Hn2 Hn2'))) as [_ ?].
  - injection E as -> _.
    by destruct (isExact_avoids DEFAULT a1 x Hx (conj Ht1 (conj Hn1 Hn1'))) as [? _].
  - injection E as <- ->.
    by destruct (isExact_avoids r1 DEFAULT x Hx (conj Ht1 (conj Hn1 Hn1'))) as [_ ?].
  - injection E as <- <-. by rewrite Ht1, Ht2.
Qed.

Lemma tokens_have_their_own_slot_witness :
  actionToken (ActionObject "user:create" (Some e1) None)
  = actionToken (ActionString "user:create").
Proof.
  apply tokens_have_their_own_slot; [reflexivity|reflexivity|discriminate|reflexivity].
Defined.

(** ** Record builder and hooks *)

Lemma applyUserInfo_network ui l :
  dataSource (applyUserInfo ui l) = dataSource l
  ∧ ip (applyUserInfo ui l) = ip l ∧ ua (applyUserInfo ui l) = ua l.
Proof.
  unfold applyUserInfo. destruct ui as [u|]; [|done].
  by destruct (truthy (prop u "id")), (truthy (prop u "roleName")).
Qed.

(** X10: whatever the rule's hooks return, the target and network fields
    of a record handed to the sink come from the request context alone:
    the resource and action names, the subject key, the client address, the
    user agent and the data source, which is the [x-data-source] header or
    [main] when the header is missing or empty, so never the empty
    string. *)
Theorem hooks_leave_target_fields_alone
  (m : AuditManager) (ctx : Ctx) (reqId : JsVal) (st : Z) (md : Obj) (l : AuditLog) :
  l ∈ sinkLogs (output m ctx reqId st md) →
  ∃ act p,
    ctx_action ctx = Some act ∧ params act = Some p
    ∧ resource l = resourceName act ∧ action l = actionName act
    ∧ resourceUk l = resourceUkOf p
    ∧ ip l = req_ip (request ctx)
    ∧ ua l = header (request ctx) !! "user-agent"
    ∧ dataSource l = orElse (header (request ctx) !! "x-data-source") "main"
    ∧ dataSource l ≠ "".
Proof.
  intros (act & p & rule & Ha & Hp & Hr & He)%output_record.
  exists act, p. split; [done|]. split; [done|].
  pose proof (enrich_inv _ _ _ _ _ _ _ He) as (_ & (_ & _ & _ & _ & Huk & Hres & Hact) & _).
  split; [exact Hres|]. split; [exact Hact|]. split; [exact Huk|].
  apply enrich_result in He as (l1 & mdl & -> & [[_ ->]|(f & ui & _ & _ & ->)]).
  - simpl. repeat split; try done.
    unfold orElse, truthyStr.
    destruct (header (request ctx) !! "x-data-source") as [h|]; [|done].
    destruct (String.eqb h "") eqn:E; simpl; [done|]. by apply String.eqb_neq.
  - destruct (applyUserInfo_network ui
      (set_status st (set_uuid reqId (baseRecord ctx act (resourceUkOf p)))))
      as (Hd & Hi & Hu).
    simpl. rewrite Hd, Hi, Hu. simpl. repeat split; try done.
    unfold orElse, truthyStr.
    destruct (header (request ctx) !! "x-data-source") as [h|]; [|done].
    destruct (String.eqb h "") eqn:E; simpl; [done|]. by apply String.eqb_neq.
Qed.

Lemma hooks_leave_target_fields_alone_witness :
  ∃ l, sinkLogs (output (managerWith (Some okSink)
                           [ActionObject "user:create" (Some e1) (Some e1)])
                   (sampleCtx "user" "create" bothKeys VNull) (VStr "req-1") 1 ∅) = [l]
       ∧ dataSource l = "main" ∧ resourceUk l = VStr "name,email".
Proof.
  destruct (output_emits
              (managerWith (Some okSink) [ActionObject "user:create" (Some e1) (Some e1)])
              okSink (sampleCtx "user" "create" bothKeys VNull) (VStr "req-1") 1 ∅
              _ bothKeys (ActionObject "user:create" (Some e1) (Some e1))
              eq_refl eq_refl eq_refl eq_refl)
    as (l & Hl & _).
  { split; intros f Hf; injection Hf as <-; by eexists. }
  exists l. split; [done|].
  destruct (hooks_leave_target_fields_alone _ _ _ _ _ l ltac:(rewrite Hl; left))
    as (act & p & Ha & Hp & _ & _ & Huk & _ & _ & Hd & _).
  injection Ha as <-. injection Hp as <-. done.
Defined.

(** X11: the user resolver overrides the actor only where it answers.
    In a record handed to the sink, [userId] is the resolver's [id] when the
    rule has a resolver that returns an object with a truthy [id], and the
    session's user id otherwise; likewise [roleName] with the resolver's
    [roleName] and the session's role. *)
Theorem user_resolver_overrides_partially
  (m : AuditManager) (ctx : Ctx) (reqId : JsVal) (st : Z) (md : Obj) (l : AuditLog) :
  l ∈ sinkLogs (output m ctx reqId st md) →
  ∃ act rule,
    ctx_action ctx = Some act
    ∧ getAction (actionName act) (resourceName act) (resources m) = Some rule
    ∧ ((userResolver rule = None
        ∧ userId l = currentUserId ctx ∧ roleName l = currentRole ctx)
       ∨ (∃ f, userResolver rule = Some f ∧ f ctx = Resolves None
               ∧ userId l = currentUserId ctx ∧ roleName l = currentRole ctx)
       ∨ (∃ f u, userResolver rule = Some f ∧ f ctx = Resolves (Some u)
                 ∧ userId l = (if truthy (prop u "id") then prop u "id"
                               else currentUserId ctx)
                 ∧ roleName l = (if truthy (prop u "roleName") then prop u "roleName"
                                 else currentRole ctx))).
Proof.
  intros (act & p & rule & Ha & Hp & Hr & He)%output_record.
  exists act, rule. split; [done|]. split; [done|].
  apply enrich_result in He as (l1 & mdl & -> & [[Hn ->]|(f & ui & Hf & Hx & ->)]).
  - left. done.
  - right. destruct ui as [u|].
    + right. exists f, u. split; [done|]. split; [done|].
      unfold applyUserInfo.
      by destruct (truthy (prop u "id")), (truthy (prop u "roleName")).
    + left. exists f. done.
Qed.

Lemma user_resolver_overrides_partially_witness :
  ∃ l, sinkLogs (output (managerWith (Some okSink)
                           [ActionObject "auth:signIn" None (Some idOnlyResolver)])
                   (sampleCtx "auth" "signIn" noKeys VNull) (VStr "req-1") 1 ∅) = [l]
       ∧ userId l = VNum 42 ∧ roleName l = VStr "admin".
Proof.
  destruct (output_emits
              (managerWith (Some okSink)
                 [ActionObject "auth:signIn" None (Some idOnlyResolver)])
              okSink (sampleCtx "auth" "signIn" noKeys VNull) (VStr "req-1") 1 ∅
              _ noKeys (ActionObject "auth:signIn" None (Some idOnlyResolver))
              eq_refl eq_refl eq_refl eq_refl)
    as (l & Hl & _).
  { split; intros f Hf; [|discriminate Hf]. injection Hf as <-. by eexists. }
  exists l. split; [done|].
  destruct (user_resolver_overrides_partially _ _ _ _ _ l ltac:(rewrite Hl; left))
    as (act & rule & Ha & Hr & H).
  injection Ha as <-.
  assert (rule = ActionObject "auth:signIn" None (Some idOnlyResolver)) as ->.
  { vm_compute in Hr. by injection Hr. }
  destruct H as [(Hn & _)|[(f & Hf & Hx & _)|(f & u & Hf & Hx & Hu & Hro)]].
  - discriminate Hn.
  - injection Hf as <-. discriminate Hx.
  - injection Hf as <-. injection Hx as <-. split; [exact Hu|exact Hro].
Defined.

(** ** Pipeline *)

(** X12: per request the pipeline runs the downstream handler exactly once,
    calls the sink at most once, sends at most one diagnostic and leaves at
    most one rejection unhandled; a diagnostic and an unhandled rejection
    never come together. *)
Theorem at_most_one_record_per_request
  (m : AuditManager) (ctx : Ctx) (next : Next) (later : nat → Ctx) :
  downstreamRuns (middleware m ctx next later).1 = 1%nat
  ∧ (List.length (sinkLogs (middleware m ctx next later).1) ≤ 1)%nat
  ∧ (List.length (diagnostics (middleware m ctx next later).1) ≤ 1)%nat
  ∧ (List.length (unhandled (middleware m ctx next later).1) ≤ 1)%nat
  ∧ (diagnostics (middleware m ctx next later).1 ≠ []
     → unhandled (middleware m ctx next later).1 = []).
Proof.
  split; [apply downstream_once|].
  destruct (next ctx) as [ctx' thrown] eqn:Hn.
  rewrite (middleware_unfold m ctx next later ctx' thrown Hn). cbn [fst].
  destruct (logger m) as [lg|]; [|simpl; repeat split; (lia || done)].
  destruct (outputAt_shape m (timeline ctx' later) (reqId ctx)
              (auditArgs ctx' thrown).1 (auditArgs ctx' thrown).2)
    as [->|[(e & ->)|[(e & ->)|[(l & ->)|[(l & e & ->)|(l & e & ->)]]]]];
    simpl; repeat split; (lia || done).
Qed.

(** X13: every record the middleware hands to the sink carries the request
    id read before the downstream handler ran, even if the handler changed
    it, and the flag the [catch] of the middleware left: [1] when the
    handler returned, [0] when it threw a value whose [message] can be
    read, and [1] again when it threw [null] or [undefined], the [catch]
    failing on [err.message] before it sets the flag. *)
Theorem record_carries_entry_id_and_outcome
  (m : AuditManager) (ctx : Ctx) (next : Next) (later : nat → Ctx) (l : AuditLog) :
  l ∈ sinkLogs (middleware m ctx next later).1 →
  uuid l = reqId ctx
  ∧ ((next ctx).2 = None → status l = 1%Z)
  ∧ (∀ v msg, (next ctx).2 = Some v → readMessageValue v = Some msg → status l = 0%Z)
  ∧ (∀ v, (next ctx).2 = Some v → v = VNull ∨ v = VUndefined → status l = 1%Z).
Proof.
  destruct (next ctx) as [ctx' thrown] eqn:Hn.
  rewrite (middleware_unfold m ctx next later ctx' thrown Hn). cbn [fst snd].
  destruct (logger m) as [lg|]; [|by intros ?%elem_of_nil].
  change (sinkLogs (Downstream :: ?evs)) with (sinkLogs evs).
  intros (act & p & rule & _ & _ & _ & He)%output_recordAt.
  apply enrich_done in He as (_ & _ & (Hu & Hst & _) & _).
  simpl in Hu, Hst. split; [exact Hu|]. rewrite Hst.
  split; [by intros ->|]. split.
  - intros v msg -> Hmsg. unfold auditArgs. by rewrite Hmsg.
  - by intros v -> [-> | ->].
Qed.

Lemma record_carries_entry_id_and_outcome_witness :
  ∃ l, sinkLogs (middleware (managerWith (Some okSink) [ActionString "create"])
                   (sampleCtx "posts" "create" noKeys VNull) failsAfterChangingId
                   (thereafter (sampleCtx "posts" "create" noKeys VNull))).1 = [l]
       ∧ uuid l = VStr "req-1" ∧ status l = 0%Z.
Proof.
  eexists. split; [reflexivity|].
  destruct (record_carries_entry_id_and_outcome
              (managerWith (Some okSink) [ActionString "create"])
              (sampleCtx "posts" "create" noKeys VNull) failsAfterChangingId
              (thereafter (sampleCtx "posts" "create" noKeys VNull)) _ ltac:(left))
    as (Hu & _ & H0 & _).
  split; [exact Hu|].
  apply (H0 (errorValue {| message := "boom" |}) (VStr "boom")); reflexivity.
Defined.

(** The hook block gets stuck only at a hook whose promise never
    settles. *)
Lemma enrich_stuck rule ctx md l0 evs tick :
  enrich rule ctx md l0 0%nat = (evs, Stuck, tick) →
  (∃ f, userResolver rule = Some f ∧ f (ctx 0%nat) = Hangs)
  ∨ (∃ f, extractor rule = Some f ∧ f (ctx (hookTick rule)) = Hangs).
Proof.
  destruct rule as [s|name gm gu]; [done|].
  unfold enrich, mbind, Async_bind, current, await, mret, Async_ret, hookTick. simpl.
  destruct gu as [fu|].
  - destruct (fu (ctx 0%nat)) as [ui|e| |e] eqn:Hfu; [|done| |done].
    + destruct gm as [fm|]; [|done].
      destruct (fm (ctx 1%nat)) as [extra|e| |e] eqn:Hfm; [done|done| |done].
      intros _. right. by exists fm.
    + intros _. left. by exists fu.
  - destruct gm as [fm|]; [|done].
    destruct (fm (ctx 0%nat)) as [extra|e| |e] eqn:Hfm; [done|done| |done].
    intros _. right. by exists fm.
Qed.

(** X14: what becomes of a request that matches a rule when the context
    has [ctx.log] throughout.  Either a record is handed to the sink; or
    exactly one diagnostic is sent and nothing else happens; or the value
    caught is [null] or [undefined], the [catch] of [output] throws while
    reading its message and all that is left is a rejected promise nobody
    handles; or nothing happens at all, which is the case only when a
    hook of the rule returns a promise that never settles. *)
Theorem matched_request_is_recorded_or_diagnosed
  (m : AuditManager) (ctx : nat → Ctx) (reqId : JsVal) (st : Z) (md : Obj)
  (act : CtxAction) (rule : Action) :
  ctx_action (ctx 0%nat) = Some act →
  getAction (actionName act) (resourceName act) (resources m) = Some rule →
  (∀ tick, ctx_log (ctx tick) = true) →
  (∃ l, sinkLogs (outputAt m ctx reqId st md) = [l])
  ∨ (∃ msg, outputAt m ctx reqId st md = [Diagnostic msg])
  ∨ outputAt m ctx reqId st md = [UnhandledRejection (TypeErrorAt ReadingMessage)]
  ∨ (outputAt m ctx reqId st md = []
     ∧ ((∃ f, userResolver rule = Some f ∧ f (ctx 0%nat) = Hangs)
        ∨ (∃ f, extractor rule = Some f ∧ f (ctx (hookTick rule)) = Hangs))).
Proof.
  intros Ha Hr Hlog.
  assert (∀ err tick,
    (∃ msg, outputCatch (ctx tick) err = [Diagnostic msg])
    ∨ outputCatch (ctx tick) err = [UnhandledRejection (TypeErrorAt ReadingMessage)])
    as Hcatch.
  { intros err tick. unfold outputCatch. rewrite Hlog.
    destruct (readMessage err); eauto. }
  destruct (params act) as [p|] eqn:Hp.
  2: { unfold outputAt, outputBody, mbind, Async_bind, current, formatAuditData,
         formatResourceUk.
       rewrite Ha, Hr, Hp. destruct (splitResource (resourceName act)). simpl.
       destruct (Hcatch (TypeErrorAt ReadingParams) 0%nat) as [[msg ->] | ->]; eauto. }
  unfold outputAt. rewrite (outputBody_matched m ctx reqId st md act p rule Ha Hp Hr).
  pose proof (enrich_events rule ctx md
    (set_status st (set_uuid reqId (baseRecord (ctx 0%nat) act (resourceUkOf p))))) as Hev.
  destruct (enrich rule ctx md _ 0%nat) as [[evs [l|err|]] tick] eqn:He;
    simpl in Hev; subst evs.
  - destruct (sinkLog_shape m l)
      as [[-> _]|(lg & _ & [(e & _ & ->)|[[_ ->]|(e & _ & ->)]])]; simpl.
    + destruct (Hcatch (TypeErrorAt ReadingLogger) tick) as [[msg ->] | ->]; eauto.
    + left. exists l.
      destruct (Hcatch (Raised e) tick) as [[msg ->] | ->]; done.
    + left. by exists l.
    + left. by exists l.
  - simpl. destruct (Hcatch err tick) as [[msg ->] | ->]; eauto.
  - right. right. right. split; [done|]. by apply enrich_stuck in He.
Qed.

Lemma matched_request_is_recorded_or_diagnosed_witness :
  outputAt (managerWith (Some okSink)
              [ActionObject "user:create" None (Some rejectsNull)])
    (thereafter (sampleCtx "user" "create" noKeys VNull)) (VStr "req-1") 1 ∅
  = [UnhandledRejection (TypeErrorAt ReadingMessage)]
  ∧ ((∃ l, sinkLogs (outputAt (managerWith (Some okSink)
                                 [ActionObject "user:create" None
                                    (Some (rejectingHook "no session"))])
                       (thereafter (sampleCtx "user" "create" noKeys VNull))
                       (VStr "req-1") 1 ∅) = [l])
     ∨ (∃ msg, outputAt (managerWith (Some okSink)
                           [ActionObject "user:create" None
                              (Some (rejectingHook "no session"))])
                 (thereafter (sampleCtx "user" "create" noKeys VNull)) (VStr "req-1") 1 ∅
               = [Diagnostic msg])
     ∨ outputAt (managerWith (Some okSink)
                   [ActionObject "user:create" None (Some (rejectingHook "no session"))])
         (thereafter (sampleCtx "user" "create" noKeys VNull)) (VStr "req-1") 1 ∅
       = [UnhandledRejection (TypeErrorAt ReadingMessage)]
     ∨ (outputAt (managerWith (Some okSink)
                    [ActionObject "user:create" None (Some (rejectingHook "no session"))])
          (thereafter (sampleCtx "user" "create" noKeys VNull)) (VStr "req-1") 1 ∅
        = []
        ∧ ((∃ f, userResolver (ActionObject "user:create" None
                                 (Some (rejectingHook "no session"))) = Some f
                 ∧ f (thereafter (sampleCtx "user" "create" noKeys VNull) 0%nat) = Hangs)
           ∨ (∃ f, extractor (ActionObject "user:create" None
                                (Some (rejectingHook "no session"))) = Some f
                   ∧ f (thereafter (sampleCtx "user" "create" noKeys VNull)
                          (hookTick (ActionObject "user:create" None
                                       (Some (rejectingHook "no session"))))) = Hangs)))).
Proof.
  split; [reflexivity|].
  apply (matched_request_is_recorded_or_diagnosed
           (managerWith (Some okSink)
              [ActionObject "user:create" None (Some (rejectingHook "no session"))])
           (thereafter (sampleCtx "user" "create" noKeys VNull)) (VStr "req-1") 1 ∅
           _ (ActionObject "user:create" None (Some (rejectingHook "no session")))
           eq_refl eq_refl).
  intros tick. reflexivity.
Defined.

(** X15: what becomes of the sink's answer, for a matched request whose
    action has [params] and whose rule hooks resolve.  The record is handed
    over in every case.  If the call returns a promise that is fulfilled,
    nothing follows; if the call throws, the value is reported when the
    context has [ctx.log] by then and its message can be read, and the
    [catch] fails in its turn when the value is [null] or [undefined]; if
    the call returns a promise that is rejected, the rejection is not
    awaited: it stays unhandled and is never reported. *)
Theorem sink_answer_and_events
  (m : AuditManager) (lg : AuditLogger) (ctx : nat → Ctx) (reqId : JsVal) (st : Z)
  (md : Obj) (act : CtxAction) (p : ActionParams) (rule : Action) :
  logger m = Some lg → ctx_action (ctx 0%nat) = Some act → params act = Some p →
  getAction (actionName act) (resourceName act) (resources m) = Some rule →
  hooksResolveAt rule ctx →
  ∃ l,
    (log lg l = SinkFulfilled → outputAt m ctx reqId st md = [SinkLog l])
    ∧ (∀ e, log lg l = SinkThrows e →
            outputAt m ctx reqId st md
            = SinkLog l ::
              (if ctx_log (ctx (S (hookTick rule)))
               then match readMessageValue e with
                    | Some msg => [Diagnostic (MessageValue msg)]
                    | None => [UnhandledRejection (TypeErrorAt ReadingMessage)]
                    end
               else []))
    ∧ (∀ e, log lg l = SinkRejected e →
            outputAt m ctx reqId st md = [SinkLog l; UnhandledRejection (Raised e)]).
Proof.
  intros Hl Ha Hp Hr Hh.
  destruct (enrich_okAt rule ctx md
    (set_status st (set_uuid reqId (baseRecord (ctx 0%nat) act (resourceUkOf p)))) Hh)
    as [l He].
  exists l. unfold outputAt.
  rewrite (outputBody_matched m ctx reqId st md act p rule Ha Hp Hr), He.
  unfold sinkLog. rewrite Hl. simpl.
  split; [|split].
  - by intros ->.
  - intros e ->. simpl. unfold outputCatch.
    destruct (ctx_log (ctx (S (hookTick rule)))); [|done]. simpl.
    by destruct (readMessageValue e).
  - by intros e ->.
Qed.

Lemma sink_answer_and_events_witness :
  ∃ l, outputAt (managerWith (Some (rejectingSink "db down")) [ActionString "create"])
         (thereafter (sampleCtx "posts" "create" noKeys VNull)) (VStr "req-1") 1 ∅
       = [SinkLog l; UnhandledRejection (Raised (errorValue {| message := "db down" |}))].
Proof.
  destruct (sink_answer_and_events
              (managerWith (Some (rejectingSink "db down")) [ActionString "create"])
              (rejectingSink "db down")
              (thereafter (sampleCtx "posts" "create" noKeys VNull)) (VStr "req-1") 1 ∅
              _ noKeys (ActionObject "create" None None)
              eq_refl eq_refl eq_refl eq_refl)
    as (l & _ & _ & H).
  { split; intros f Hf; discriminate Hf. }
  exists l. by apply H.
Defined.

(** X16: a failure before the sink call means no record.  When the matched
    rule's user resolver or metadata extractor rejects, or the action has
    no [params] to read the subject key from, the sink is not called. *)
Theorem early_failure_emits_no_record
  (m : AuditManager) (ctx : Ctx) (reqId : JsVal) (st : Z) (md : Obj)
  (act : CtxAction) (rule : Action) :
  ctx_action ctx = Some act →
  getAction (actionName act) (resourceName act) (resources m) = Some rule →
  params act = None
  ∨ (∃ f e, userResolver rule = Some f ∧ f ctx = Rejects e)
  ∨ (∃ f e, extractor rule = Some f ∧ f ctx = Rejects e) →
  sinkLogs (output m ctx reqId st md) = [].
Proof.
  intros Ha Hr Hfail.
  destruct (sinkLogs (output m ctx reqId st md)) as [|l ls] eqn:E; [done|].
  exfalso.
  destruct (output_record m ctx reqId st md l) as (act' & p & rule' & Ha' & Hp & Hr' & He).
  { rewrite E. by left. }
  rewrite Ha in Ha'. injection Ha' as <-.
  rewrite Hr in Hr'. injection Hr' as <-.
  destruct Hfail as [Hn|[(f & e & Hf & Hx)|(f & e & Hf & Hx)]].
  - by rewrite Hn in Hp.
  - apply enrich_result in He as (l1 & mdl & _ & [[Hnone _]|(g & ui & Hg & Hy & _)]).
    + by rewrite Hnone in Hf.
    + rewrite Hg in Hf. injection Hf as <-. by rewrite Hy in Hx.
  - apply enrich_inv in He as (_ & _ & [(g & extra & Hg & Hy & _)|[Hnone _]]).
    + rewrite Hg in Hf. injection Hf as <-. by rewrite Hy in Hx.
    + by rewrite Hnone in Hf.
Qed.

Lemma early_failure_emits_no_record_witness :
  sinkLogs (output (managerWith (Some okSink)
                      [ActionObject "user:create" (Some (rejectingHook "no db")) None])
              (sampleCtx "user" "create" noKeys VNull) (VStr "req-1") 1 ∅) = [].
Proof.
  eapply (early_failure_emits_no_record
            (managerWith (Some okSink)
               [ActionObject "user:create" (Some (rejectingHook "no db")) None])
            (sampleCtx "user" "create" noKeys VNull)); [reflexivity|reflexivity|].
  right. right. eexists _, _. split; reflexivity.
Defined.

(** X17: when the handler threw a value whose [message] can be read and
    the matched rule has no metadata extractor, the record's metadata has
    exactly four fields: the [status] and [errMsg] of the failure, and the
    default [request] and [response] parts, untouched, of the context as
    [output] finds it when it builds them, which is after the user
    resolver was awaited when the rule has one. *)
Theorem failure_metadata_keeps_defaults
  (m : AuditManager) (ctx ctx' : Ctx) (next : Next) (later : nat → Ctx) (err msg : JsVal)
  (l : AuditLog) (act : CtxAction) (rule : Action) :
  next ctx = (ctx', Some err) → readMessageValue err = Some msg →
  l ∈ sinkLogs (middleware m ctx next later).1 →
  ctx_action ctx' = Some act →
  getAction (actionName act) (resourceName act) (resources m) = Some rule →
  extractor rule = None →
  ∃ mdl,
    metadata l = Some mdl
    ∧ dom mdl = ({[ "request"; "response"; "status"; "errMsg" ]} : gset string)
    ∧ mdl !! "errMsg" = Some msg
    ∧ mdl !! "status" = Some (VNum (ctx_status ctx'))
    ∧ requestPart mdl
      = requestPart (getDefaultMetaData (timeline ctx' later (hookTick rule)))
    ∧ responseBody mdl
      = responseBody (getDefaultMetaData (timeline ctx' later (hookTick rule))).
Proof.
  intros Hn Hmsg Hin Ha Hr Hnone.
  rewrite (middleware_unfold m ctx next later ctx' (Some err) Hn) in Hin.
  unfold auditArgs in Hin. rewrite Hmsg in Hin. cbn [fst snd] in Hin.
  destruct (logger m) as [lg|]; [|by apply elem_of_nil in Hin].
  change (sinkLogs (Downstream :: ?evs)) with (sinkLogs evs) in Hin.
  apply output_recordAt in Hin as (act' & p & rule' & Ha' & Hp & Hr' & He).
  simpl in Ha'. rewrite Ha in Ha'. injection Ha' as <-.
  rewrite Hr in Hr'. injection Hr' as <-.
  apply enrich_done in He as (_ & _ & _ & [(f & extra & Hf & _)|[_ Hmd]] & _).
  { by rewrite Hnone in Hf. }
  eexists. split; [exact Hmd|].
  split; [|by repeat split].
  unfold spread, getDefaultMetaData, failureMetadata.
  rewrite dom_union_L, !dom_insert_L, !dom_singleton_L. set_solver.
Qed.

Lemma failure_metadata_keeps_defaults_witness :
  ∃ l mdl,
    sinkLogs (middleware (managerWith (Some okSink) [ActionString "create"])
                (sampleCtx "posts" "create" noKeys VNull) (throws "boom")
                (thereafter (sampleCtx "posts" "create" noKeys VNull))).1 = [l]
    ∧ metadata l = Some mdl
    ∧ dom mdl = ({[ "request"; "response"; "status"; "errMsg" ]} : gset string).
Proof.
  eexists.
  destruct (failure_metadata_keeps_defaults
              (managerWith (Some okSink) [ActionString "create"])
              (sampleCtx "posts" "create" noKeys VNull) _ (throws "boom")
              (thereafter (sampleCtx "posts" "create" noKeys VNull))
              _ (VStr "boom") _
              _ (ActionObject "create" None None)
              eq_refl eq_refl ltac:(left) eq_refl eq_refl eq_refl)
    as (mdl & Hm & Hd & _).
  exists mdl. split; [reflexivity|]. split; [exact Hm|exact Hd].
Defined.

(** A hook whose promise never settles loses the request without a
    trace; and the text [ctx.log.error] receives for a rejected hook. *)
Example hanging_hook_loses_request :
  outputAt (managerWith (Some okSink) [ActionObject "user:create" (Some neverSettles) None])
    (thereafter (sampleCtx "user" "create" noKeys VNull)) (VStr "req-1") 1 ∅ = []
  ∧ diagnosticText <$>
      diagnostics
        (outputAt (managerWith (Some okSink)
                     [ActionObject "user:create" None (Some (rejectingHook "no session"))])
           (thereafter (sampleCtx "user" "create" noKeys VNull)) (VStr "req-1") 1 ∅)
    = [Some "audit output error: no session"].
Proof. split; reflexivity. Qed.

(** ** Field names *)

Lemma length_dropS n s : String.length (dropS n s) = (String.length s - n)%nat.
Proof.
  revert s. induction n as [|n IH]; intros s; simpl; [lia|].
  destruct s as [|c s]; simpl; [done|]. apply IH.
Qed.

Lemma length_repeatS n c : String.length (repeatS n c) = n.
Proof. induction n as [|n IH]; simpl; [done|]. by rewrite IH. Qed.

Lemma length_app_string s1 s2 :
  String.length (s1 +:+ s2) = (String.length s1 + String.length s2)%nat.
Proof. induction s1 as [|c s1 IH]; simpl; [done|]. by rewrite IH. Qed.

Lemma length_padded_slice s : String.length (padStart 4 "0" (sliceFromEnd 4 s)) = 4%nat.
Proof.
  unfold padStart, sliceFromEnd.
  rewrite length_app_string, length_repeatS, length_dropS. lia.
Qed.

Lemma allBase36_dropS n s : allBase36 s = true → allBase36 (dropS n s) = true.
Proof.
  revert s. induction n as [|n IH]; intros s; simpl; [done|].
  destruct s as [|c s]; simpl; [done|].
  intros [_ Hs]%andb_true_iff. by apply IH.
Qed.

Lemma allBase36_app s1 s2 :
  allBase36 s1 = true → allBase36 s2 = true → allBase36 (s1 +:+ s2) = true.
Proof.
  induction s1 as [|c s1 IH]; simpl; [done|].
  intros [Hc Hs]%andb_true_iff H2. rewrite Hc. simpl. by apply IH.
Qed.

Lemma allBase36_zeros n : allBase36 (repeatS n "0") = true.
Proof. induction n as [|n IH]; simpl; [done|]. exact IH. Qed.

(** X18: whatever [Math.random().toString(36)] returns, the generated
    field name is [f_] followed by exactly four characters.  When it
    returns [0.] followed by base-36 digits, or [0], the four characters
    are the last four digits of the fraction, padded with [0] on the left
    when there are fewer. *)
Theorem generated_field_name_shape (random36 : string) :
  String.length (generateFieldName random36) = 6%nat
  ∧ (∃ suffix, generateFieldName random36 = "f_" +:+ suffix
               ∧ String.length suffix = 4%nat
               ∧ (∀ frac, random36 = "0." +:+ frac ∨ (random36 = "0" ∧ frac = "0") →
                          allBase36 frac = true →
                          suffix = padStart 4 "0" (sliceFromEnd 4 frac)
                          ∧ allBase36 suffix = true)).
Proof.
  unfold generateFieldName.
  split.
  { rewrite length_app_string, length_padded_slice. done. }
  eexists. split; [reflexivity|]. split; [apply length_padded_slice|].
  intros frac Hr Hb.
  assert (removeFirst "0." random36 = frac) as ->.
  { destruct Hr as [-> | [-> ->]]; [|done].
    change ("0." +:+ frac) with (String "0" (String "." frac)).
    unfold removeFirst. cbn [String.prefix]. simpl. by destruct frac. }
  split; [done|].
  unfold padStart, sliceFromEnd.
  apply allBase36_app; [apply allBase36_zeros|by apply allBase36_dropS].
Qed.

Lemma generated_field_name_shape_witness :
  generateFieldName "0.4fzyo82mvyr" = "f_mvyr" ∧ generateFieldName "0.a1" = "f_00a1".
Proof.
  split.
  - destruct (generated_field_name_shape "0.4fzyo82mvyr") as (_ & suffix & -> & _ & H).
    by destruct (H "4fzyo82mvyr" (or_introl eq_refl) eq_refl) as [-> _].
  - destruct (generated_field_name_shape "0.a1") as (_ & suffix & -> & _ & H).
    by destruct (H "a1" (or_introl eq_refl) eq_refl) as [-> _].
Defined.

(** ** More on resolution and metadata *)

(** X19: a rule for one action of a resource hides the global rules for
    the resource's other actions.  If the resource [R] had no bucket, then
    after registering [R:B] every other action of [R] resolves to nothing,
    whatever the global bucket holds. *)
Theorem specific_rule_hides_global_rules
  (x : Action) (R B A : string) (rs : Resources) :
  isExact R B x → R ≠ DEFAULT → B ≠ DEFAULT → A ≠ B → rs !! R = None →
  getAction A (Some R) (registerAction x rs) = None.
Proof.
  intros Hx HR HB HA Hnone.
  destruct (isExact_slot R B x Hx) as [Hs Hne].
  assert (R ≠ "") as HR0.
  { destruct Hx as (_ & Hn & _). by apply nameRegex_nonempty. }
  rewrite getAction_named by done.
  assert (∀ k, k ≠ B → slot (registerAction x rs) R k = None) as Hslot.
  { intros k Hk. rewrite registerAction_slot, decide_False.
    - unfold slot. by rewrite Hnone.
    - intros [E _]. rewrite Hs in E. by injection E. }
  pose proof (Hslot A HA) as H1. pose proof (Hslot DEFAULT (not_eq_sym HB)) as H2.
  unfold slot in H1, H2.
  destruct (registerAction x rs !! R) as [bucket|] eqn:Hb; simpl in *.
  - unfold getTruthy. by rewrite H1, H2.
  - exfalso. unfold registerAction in Hb. unfold slotOf in Hs. rewrite Hs in Hb.
    destruct (String.eqb R "" && String.eqb B "") eqn:Hd.
    + apply andb_true_iff in Hd as [?%String.eqb_eq _]. done.
    + by rewrite lookup_insert_eq in Hb.
Qed.

Lemma specific_rule_hides_global_rules_witness :
  getAction "create" (Some "user") (registerActions [ActionString "create"] ∅)
  = Some (ActionObject "create" None None)
  ∧ getAction "create" (Some "user")
      (registerAction (ActionString "user:update") (registerActions [ActionString "create"] ∅))
    = None.
Proof.
  split; [reflexivity|].
  apply (specific_rule_hides_global_rules (ActionString "user:update") "user" "update");
    [by repeat split|discriminate|discriminate|discriminate|reflexivity].
Defined.

(** X20: on success the caller's metadata is empty, so with a metadata
    extractor the record's metadata is exactly what the extractor returned,
    or the empty object if it returned [null]; the extractor was called on
    the context as [output] found it then, which is after the user resolver
    was awaited when the rule has one. *)
Theorem success_metadata_is_the_extractor_output
  (m : AuditManager) (ctx ctx' : Ctx) (next : Next) (later : nat → Ctx) (l : AuditLog)
  (act : CtxAction) (rule : Action) (f : Hook) :
  next ctx = (ctx', None) →
  l ∈ sinkLogs (middleware m ctx next later).1 →
  ctx_action ctx' = Some act →
  getAction (actionName act) (resourceName act) (resources m) = Some rule →
  extractor rule = Some f →
  ∃ extra,
    f (timeline ctx' later (hookTick rule)) = Resolves extra
    ∧ metadata l = Some (default ∅ extra).
Proof.
  intros Hn Hin Ha Hr Hf.
  rewrite (middleware_unfold m ctx next later ctx' None Hn) in Hin. cbn [fst snd] in Hin.
  destruct (logger m) as [lg|]; [|by apply elem_of_nil in Hin].
  change (sinkLogs (Downstream :: ?evs)) with (sinkLogs evs) in Hin.
  apply output_recordAt in Hin as (act' & p & rule' & Ha' & Hp & Hr' & He).
  simpl in Ha'. rewrite Ha in Ha'. injection Ha' as <-.
  rewrite Hr in Hr'. injection Hr' as <-.
  apply enrich_done in He as (_ & _ & _ & [(g & extra & Hg & Hx & Hmd)|[Hnone _]] & _).
  - rewrite Hf in Hg. injection Hg as <-. exists extra. split; [done|].
    rewrite Hmd. f_equal. destruct extra as [e|]; simpl; [|done].
    by rewrite (right_id_L ∅ (∪)).
  - by rewrite Hnone in Hf.
Qed.

Lemma success_metadata_is_the_extractor_output_witness :
  ∃ l, sinkLogs (middleware (managerWith (Some okSink)
                               [ActionObject "user:create" (Some e1) None])
                   (sampleCtx "user" "create" noKeys VNull) returns
                   (thereafter (sampleCtx "user" "create" noKeys VNull))).1 = [l]
       ∧ metadata l = Some {[ "note" := VStr "from e1" ]}.
Proof.
  eexists. split; [reflexivity|].
  destruct (success_metadata_is_the_extractor_output
              (managerWith (Some okSink) [ActionObject "user:create" (Some e1) None])
              (sampleCtx "user" "create" noKeys VNull) _ returns
              (thereafter (sampleCtx "user" "create" noKeys VNull)) _
              _ (ActionObject "user:create" (Some e1) None) e1
              eq_refl ltac:(left) eq_refl eq_refl eq_refl)
    as (extra & Hx & Hm).
  injection Hx as <-. exact Hm.
Defined.
